(** * DIY_topology: a shallow embedding of [TopologyTest]

    The Python class validates a collection of vector features against
    topology rules.  Geometry primitives come from an external kernel
    (shapely / GEOS); they are taken here as an interface, [GeometryKernel],
    whose operations may raise.  The methods of the class are written in a
    small state-and-exception monad over a [World] that holds the instance
    ([self]), the lines printed so far, and a ghost trace of the pairs the
    intersection check evaluates. *)

From Stdlib Require Import QArith.
From stdpp Require Import base option list strings gmap.

Local Open Scope string_scope.
Local Open Scope list_scope.

(** ** Attribute values and Python equality *)

(** JSON scalars as they reach the rule evaluator. *)
Inductive Scalar : Type :=
  | SNull
  | SBool (b : bool)
  | SNum (q : Q)
  | SStr (s : string).

(** Python's [bool] is a subclass of [int]: [True == 1] and [False == 0]. *)
Definition as_number (x : Scalar) : option Q :=
  match x with
  | SBool true => Some 1%Q
  | SBool false => Some 0%Q
  | SNum q => Some q
  | _ => None
  end.

(** [x == y] on scalars. *)
Definition py_eq (x y : Scalar) : bool :=
  match x, y with
  | SNull, SNull => true
  | SStr a, SStr b => String.eqb a b
  | _, _ =>
      match as_number x, as_number y with
      | Some a, Some b => Qeq_bool a b
      | _, _ => false
      end
  end.

(** [x in l] for a list [l]. *)
Fixpoint py_in (x : Scalar) (l : list Scalar) : bool :=
  match l with
  | [] => false
  | y :: l' => if py_eq x y then true else py_in x l'
  end.

(** [attr.get(attribute)]: the default of [dict.get] is [None]; the key itself
    is [None] when the condition has no ["attribute"] entry, and attribute
    keys are strings. *)
Definition attr_get (attr : gmap string Scalar) (attribute : option string) : Scalar :=
  match attribute with
  | Some k => default SNull (attr !! k)
  | None => SNull
  end.

(** One entry of [allow_intersection_if] / [allow_overlap_if]. *)
Record Condition : Type := mkCondition {
  attribute : option string;          (* condition.get("attribute") *)
  values : option (list Scalar)       (* condition.get("values", []) *)
}.

(** [self.rules]: the entry of the dataset type in ["dataset_rules"]. *)
Record Rules : Type := mkRules {
  allow_intersection_if : option (list Condition);
  allow_overlap_if : option (list Condition)
}.

(** [self.config]: global settings updated with the dataset rules. *)
Record Config : Type := mkConfig {
  id_attribute : option string;
  output_folder_name : option string;
  enabled_checks : option (gmap string bool);
  tolerances : option (gmap string Q);
  min_intersection_area : option Q;
  config_allow_intersection_if : option (list Condition);
  config_allow_overlap_if : option (list Condition)
}.

(** ** Exceptions *)

Inductive PyExc : Type :=
  | NameError (name : string)
  | IndexError (msg : string)
  | GEOSException (msg : string).

Definition str_exc (e : PyExc) : string :=
  match e with
  | NameError name => ("name '" ++ name ++ "' is not defined")%string
  | IndexError msg => msg
  | GEOSException msg => msg
  end.

Inductive res (A : Type) : Type :=
  | Ok (a : A)
  | Raise (e : PyExc).
Arguments Ok {A} a.
Arguments Raise {A} e.

Definition is_ok {A} (r : res A) : bool :=
  match r with Ok _ => true | Raise _ => false end.

(** ** The geometry kernel *)

Inductive GeomType : Type :=
  | Point | LineString | LinearRing | Polygon
  | MultiPoint | MultiLineString | MultiPolygon | GeometryCollection.

Definition GeomType_eqb (a b : GeomType) : bool :=
  match a, b with
  | Point, Point | LineString, LineString | LinearRing, LinearRing
  | Polygon, Polygon | MultiPoint, MultiPoint
  | MultiLineString, MultiLineString | MultiPolygon, MultiPolygon
  | GeometryCollection, GeometryCollection => true
  | _, _ => false
  end.

(** [(minx, miny, maxx, maxy)] *)
Record BBox : Type := mkBBox { minx : Q; miny : Q; maxx : Q; maxy : Q }.

Definition bbox_intersects (a b : BBox) : bool :=
  Qle_bool (minx a) (maxx b) && Qle_bool (minx b) (maxx a) &&
  Qle_bool (miny a) (maxy b) && Qle_bool (miny b) (maxy a).

(** The shapely operations the class calls.  Every call into GEOS may raise. *)
Class GeometryKernel (Geom : Type) : Type := {
  geom_type : Geom -> GeomType;
  bounds : Geom -> BBox;
  intersects : Geom -> Geom -> res bool;
  overlaps : Geom -> Geom -> res bool;
  contains : Geom -> Geom -> res bool;
  intersection : Geom -> Geom -> res Geom;
  difference : Geom -> Geom -> res Geom;
  buffer : Geom -> Q -> res Geom;
  unary_union : list Geom -> res Geom;
  is_valid : Geom -> res bool;
  is_simple : Geom -> res bool;
  is_empty : Geom -> res bool;
  area : Geom -> res Q;
  (* Point(geom.coords[0]) and Point(geom.coords[-1]), once [Point] is bound *)
  coords_first : Geom -> res Geom;
  coords_last : Geom -> res Geom
}.

(** Names bound at module level in the file that defines [validate_topology]
    (its imports and the class itself). *)
Definition module_globals : list string :=
  ["geojson"; "os"; "json"; "mapping"; "MultiPolygon"; "MultiLineString";
   "Polygon"; "unary_union"; "combinations"; "gpd"; "TopologyTest"].

Section TopologyTest.
Context {Geom : Type} `{K : GeometryKernel Geom}.

(** A loaded feature: [(geom, attributes)]. *)
Definition Feature : Type := (Geom * gmap string Scalar)%type.

(** [(geometry1, geometry2, intersection_geometry, attributes1, attributes2)] *)
Definition IntersectionIssue : Type :=
  (Geom * Geom * Geom * gmap string Scalar * gmap string Scalar)%type.
(** [(geometry1, geometry2, attributes1, attributes2)] *)
Definition PairIssue : Type :=
  (Geom * Geom * gmap string Scalar * gmap string Scalar)%type.

Record TopologyTest : Type := mkTopologyTest {
  dataset_type : string;
  config : Config;
  rules : Rules;
  geometries : list Feature;
  invalid_intersections : option (list IntersectionIssue)
}.

Record World : Type := mkWorld {
  self : TopologyTest;
  stdout : list string;
  probes : list (nat * nat)   (* ghost: pairs handed to [intersects] *)
}.

(** *** The monad: state survives a raised exception, as in Python. *)
Definition M (A : Type) : Type := World -> res A * World.

Definition ret {A} (a : A) : M A := fun w => (Ok a, w).
Definition raise {A} (e : PyExc) : M A := fun w => (Raise e, w).
Definition bind {A B} (m : M A) (k : A -> M B) : M B :=
  fun w =>
    match m w with
    | (Ok a, w') => k a w'
    | (Raise e, w') => (Raise e, w')
    end.
Definition lift {A} (r : res A) : M A := fun w => (r, w).

(** [try: body except Exception as e: handler e] *)
Definition try_except {A} (body : M A) (handler : PyExc -> M A) : M A :=
  fun w =>
    match body w with
    | (Ok a, w') => (Ok a, w')
    | (Raise e, w') => handler e w'
    end.

Definition get_self : M TopologyTest := fun w => (Ok (self w), w).

Definition set_invalid_intersections (v : list IntersectionIssue) : M unit :=
  fun w =>
    let s := self w in
    (Ok tt,
     mkWorld (mkTopologyTest (dataset_type s) (config s) (rules s)
                             (geometries s) (Some v))
             (stdout w) (probes w)).

Definition print (line : string) : M unit :=
  fun w => (Ok tt, mkWorld (self w) (stdout w ++ [line]) (probes w)).

Definition probe (i j : nat) : M unit :=
  fun w => (Ok tt, mkWorld (self w) (stdout w) (probes w ++ [(i, j)])).

(** Looking up a global name that is called as a function. *)
Definition load_global (name : string) : M unit :=
  if bool_decide (name ∈ module_globals) then ret tt else raise (NameError name).

End TopologyTest.

Notation "x <- m ;; k" := (bind m (fun x => k))
  (at level 100, m at next level, right associativity).
Notation "m ;;; k" := (bind m (fun _ => k))
  (at level 100, right associativity).

(** ** The methods of [TopologyTest] *)

Section Methods.
Context {Geom : Type} `{K : GeometryKernel Geom}.
Local Abbreviation Feature := (@Feature Geom).
Local Abbreviation IntersectionIssue := (@IntersectionIssue Geom).
Local Abbreviation PairIssue := (@PairIssue Geom).
Local Abbreviation TopologyTest := (@TopologyTest Geom).
Local Abbreviation World := (@World Geom).
Local Abbreviation M := (@M Geom).

(** [for x in l: acc = body acc x], where the body may raise. *)
Fixpoint for_each {A B : Type} (l : list A) (body : B -> A -> M B) (acc : B) : M B :=
  match l with
  | [] => ret acc
  | x :: l' => acc' <- body acc x ;; for_each l' body acc'
  end.

(** *** The data frame built from [self.geometries] *)

(** [gdf.iterrows()]: index labels are the positions [0 .. n-1]. *)
Definition iterrows (gdf : list Feature) : list (nat * Feature) :=
  zip (seq 0 (length gdf)) gdf.

(** [sindex.intersection(bounds)]: the positions whose bounding box meets
    [bounds], taken here in ascending order. *)
Definition sindex_intersection (gdf : list Feature) (b : BBox) : list nat :=
  (filter (fun r : nat * Feature => bbox_intersects b (bounds (fst (snd r))) = true)
          (iterrows gdf)).*1.

(** [gdf.iloc[positions]]: rows by position, each with its label in [.name];
    a position out of range raises. *)
Fixpoint iloc (gdf : list Feature) (positions : list nat) : res (list (nat * Feature)) :=
  match positions with
  | [] => Ok []
  | j :: ps =>
      match gdf !! j with
      | None => Raise (IndexError "positional indexers are out-of-bounds")
      | Some f =>
          match iloc gdf ps with
          | Ok rows => Ok ((j, f) :: rows)
          | Raise e => Raise e
          end
      end
  end.

(** [gdf.iloc[k:]] *)
Definition iloc_from (gdf : list Feature) (k : nat) : list (nat * Feature) :=
  drop k (iterrows gdf).

(** *** Rule evaluator *)

(** The [for condition in conditions] loop of [_is_valid_intersection]. *)
Fixpoint any_condition_met (conditions : list Condition)
    (attr1 attr2 : gmap string Scalar) : bool :=
  match conditions with
  | [] => false
  | condition :: rest =>
      let attribute := attribute condition in
      let allowed_values := default [] (values condition) in
      if py_in (attr_get attr1 attribute) allowed_values
         || py_in (attr_get attr2 attribute) allowed_values
      then true
      else any_condition_met rest attr1 attr2
  end.

Definition _is_valid_intersection (self : TopologyTest)
    (attr1 attr2 : gmap string Scalar) : bool :=
  let conditions := default [] (allow_intersection_if (rules self)) in
  match conditions with
  | [] => false                         (* if not conditions: return False *)
  | _ => any_condition_met conditions attr1 attr2
  end.

(** *** check_intersections *)

(** Body of the inner loop for the row [(idx, row)] and one [match]. *)
Definition intersections_inner (self : TopologyTest) (idx : nat) (row : Feature)
    (invalid : list IntersectionIssue) (m : nat * Feature)
    : M (list IntersectionIssue) :=
  let '(name, mrow) := m in
  if (name <=? idx)%nat then ret invalid         (* idx >= match.name: continue *)
  else
    probe idx name ;;;
    b <- lift (intersects (fst row) (fst mrow)) ;;
    if b then
      if negb (_is_valid_intersection self (snd row) (snd mrow)) then
        try_except
          (inter_geom <- lift (intersection (fst row) (fst mrow)) ;;
           v <- lift (is_valid inter_geom) ;;
           if negb v then ret invalid                    (* continue *)
           else
             a <- lift (area inter_geom) ;;
             if Qle_bool (default 0%Q (min_intersection_area (config self))) a
             then ret (invalid ++ [(fst row, fst mrow, inter_geom, snd row, snd mrow)])
             else ret invalid)
          (fun _ => ret invalid)                         (* continue *)
      else ret invalid
    else ret invalid.

(** Body of the outer loop. *)
Definition intersections_outer (self : TopologyTest) (gdf : list Feature)
    (invalid : list IntersectionIssue) (r : nat * Feature)
    : M (list IntersectionIssue) :=
  let '(idx, row) := r in
  let possible_matches_index := sindex_intersection gdf (bounds (fst row)) in
  possible_matches <- lift (iloc gdf possible_matches_index) ;;
  for_each possible_matches (intersections_inner self idx row) invalid.

Definition check_intersections : M (list IntersectionIssue) :=
  self <- get_self ;;
  match invalid_intersections self with
  | Some cached => ret cached                            (* cached results *)
  | None =>
      let gdf := geometries self in
      invalid <- for_each (iterrows gdf) (intersections_outer self gdf) [] ;;
      set_invalid_intersections invalid ;;;
      ret invalid
  end.

(** *** check_self_intersections *)

Definition check_self_intersections : M (list Feature) :=
  self <- get_self ;;
  for_each (geometries self)
    (fun acc f =>
       s <- lift (is_simple (fst f)) ;;
       if negb s then ret (acc ++ [f]) else ret acc)
    [].

(** *** check_gaps *)

(** [isinstance(geom, Polygon)]: the shapely classes are not subclasses of
    one another. *)
Definition isinstance_Polygon (g : Geom) : bool :=
  GeomType_eqb (geom_type g) Polygon.

Definition check_gaps (tolerance : Q) : M (option Geom) :=
  self <- get_self ;;
  match geometries self with
  | [] => ret None
  | _ =>
      let polygons :=
        (filter (fun f : Feature => isinstance_Polygon (fst f) = true)
                (geometries self)).*1 in
      match polygons with
      | [] => ret None
      | _ =>
          try_except
            (all_polys <- lift (unary_union polygons) ;;
             buffered <- lift (buffer all_polys tolerance) ;;
             gaps <- lift (difference buffered all_polys) ;;
             e <- lift (is_empty gaps) ;;
             if e then ret None else ret (Some gaps))
            (fun e =>
               print ("Error checking for gaps: " ++ str_exc e)%string ;;;
               ret None)
      end
  end.

(** *** check_dangles *)

Definition check_dangles : M (list Feature) :=
  self <- get_self ;;
  network <- lift (unary_union (geometries self).*1) ;;
  for_each (geometries self)
    (fun dangles f =>
       if GeomType_eqb (geom_type (fst f)) LineString then
         load_global "Point" ;;;
         start_point <- lift (coords_first (fst f)) ;;
         load_global "Point" ;;;
         end_point <- lift (coords_last (fst f)) ;;
         rest1 <- lift (difference network (fst f)) ;;
         t1 <- lift (intersects rest1 start_point) ;;
         if negb t1 then ret (dangles ++ [f])
         else
           rest2 <- lift (difference network (fst f)) ;;
           t2 <- lift (intersects rest2 end_point) ;;
           if negb t2 then ret (dangles ++ [f]) else ret dangles
       else ret dangles)
    [].

(** *** check_overlaps and check_containment *)

Definition check_overlaps (tolerance : Q) : M (list PairIssue) :=
  self <- get_self ;;
  let gdf := geometries self in
  for_each (iterrows gdf)
    (fun acc1 r1 =>
       for_each (iloc_from gdf (fst r1 + 1))
         (fun acc2 r2 =>
            let row1 := snd r1 in
            let row2 := snd r2 in
            o <- lift (overlaps (fst row1) (fst row2)) ;;
            if o then
              inter_geom <- lift (intersection (fst row1) (fst row2)) ;;
              overlap_area <- lift (area inter_geom) ;;
              if negb (Qle_bool overlap_area tolerance)   (* area > tolerance *)
              then ret (acc2 ++ [(fst row1, fst row2, snd row1, snd row2)])
              else ret acc2
            else ret acc2)
         acc1)
    [].

Definition check_containment : M (list PairIssue) :=
  self <- get_self ;;
  let gdf := geometries self in
  for_each (iterrows gdf)
    (fun acc1 r1 =>
       for_each (iloc_from gdf (fst r1 + 1))
         (fun acc2 r2 =>
            let row1 := snd r1 in
            let row2 := snd r2 in
            c <- lift (contains (fst row1) (fst row2)) ;;
            if c then ret (acc2 ++ [(fst row1, fst row2, snd row1, snd row2)])
            else ret acc2)
         acc1)
    [].

(** *** validate_topology *)

(** A value stored in the [results] dictionary. *)
Inductive CheckResult : Type :=
  | RIntersections (issues : list IntersectionIssue)
  | RFeatures (issues : list Feature)
  | RGaps (gaps : Geom)
  | RPairs (issues : list PairIssue).

(** [self.config.get('enabled_checks', {}).get(name, True)] *)
Definition enabled (self : TopologyTest) (name : string) : bool :=
  default true (default ∅ (enabled_checks (config self)) !! name).

(** [v is not None and (isinstance(v, list) and len(v) > 0 or not isinstance(v, list))] *)
Definition keep_result (v : CheckResult) : bool :=
  match v with
  | RIntersections l => (0 <? length l)%nat
  | RFeatures l => (0 <? length l)%nat
  | RGaps _ => true
  | RPairs l => (0 <? length l)%nat
  end.

Definition enabled_check (name : string) : M bool :=
  self <- get_self ;; ret (enabled self name).

Definition validate_topology : M (gmap string CheckResult) :=
  let results : gmap string CheckResult := ∅ in
  results <-
    (e <- enabled_check "intersections" ;;
     if e then r <- check_intersections ;;
               ret (<["intersections" := RIntersections r]> results)
     else ret results) ;;
  results <-
    (e <- enabled_check "self_intersections" ;;
     if e then r <- check_self_intersections ;;
               ret (<["self_intersections" := RFeatures r]> results)
     else ret results) ;;
  results <-
    (e <- enabled_check "gaps" ;;
     if e then gaps <- check_gaps 0%Q ;;
               match gaps with
               | Some g => ret (<["gaps" := RGaps g]> results)
               | None => ret results
               end
     else ret results) ;;
  results <-
    (e <- enabled_check "dangles" ;;
     if e then r <- check_dangles ;;
               ret (<["dangles" := RFeatures r]> results)
     else ret results) ;;
  results <-
    (e <- enabled_check "overlaps" ;;
     if e then r <- check_overlaps 0%Q ;;
               ret (<["overlaps" := RPairs r]> results)
     else ret results) ;;
  results <-
    (e <- enabled_check "containment" ;;
     if e then r <- check_containment ;;
               ret (<["containment" := RPairs r]> results)
     else ret results) ;;
  (* Filter out empty results *)
  ret (filter (fun kv : string * CheckResult => keep_result (snd kv) = true) results).

End Methods.

(** ** A concrete kernel: raster geometries

    A geometry is a typed finite set of grid cells.  It is the instance the
    concrete runs below are computed with.  Overlay operations (union,
    intersection, difference, buffer) raise on a geometry marked [corrupt],
    as GEOS does on input it cannot process; [is_valid] reports it. *)

Module Raster.

Record Geom : Type := mkGeom {
  gtype : GeomType;
  cells : list (Z * Z);
  corrupt : bool
}.

Definition cell_eqb (a b : Z * Z) : bool :=
  (fst a =? fst b)%Z && (snd a =? snd b)%Z.

Fixpoint mem (c : Z * Z) (l : list (Z * Z)) : bool :=
  match l with
  | [] => false
  | d :: l' => cell_eqb c d || mem c l'
  end.

Fixpoint dedup (l : list (Z * Z)) : list (Z * Z) :=
  match l with
  | [] => []
  | c :: l' => if mem c l' then dedup l' else c :: dedup l'
  end.

Definition subset (a b : list (Z * Z)) : bool := forallb (fun c => mem c b) a.
Definition meet (a b : list (Z * Z)) : list (Z * Z) := List.filter (fun c => mem c b) a.
Definition minus (a b : list (Z * Z)) : list (Z * Z) := List.filter (fun c => negb (mem c b)) a.

Definition is_nil {A} (l : list A) : bool :=
  match l with [] => true | _ => false end.

Definition topology_exception : PyExc := GEOSException "TopologyException".

Definition guard {A} (bad : bool) (a : A) : res A :=
  if bad then Raise topology_exception else Ok a.

Definition r_bounds (g : Geom) : BBox :=
  match cells g with
  | [] => mkBBox 0 0 (-1) (-1)
  | c :: cs =>
      let xs := List.map fst cs in
      let ys := List.map snd cs in
      mkBBox (inject_Z (List.fold_right Z.min (fst c) xs))
             (inject_Z (List.fold_right Z.min (snd c) ys))
             (inject_Z (List.fold_right Z.max (fst c) xs))
             (inject_Z (List.fold_right Z.max (snd c) ys))
  end.

Definition r_intersects (a b : Geom) : res bool :=
  Ok (negb (is_nil (meet (cells a) (cells b)))).

Definition r_contains (a b : Geom) : res bool :=
  Ok (negb (is_nil (cells b)) && subset (cells b) (cells a)).

Definition r_overlaps (a b : Geom) : res bool :=
  Ok (negb (is_nil (meet (cells a) (cells b)))
      && negb (subset (cells a) (cells b))
      && negb (subset (cells b) (cells a))).

Definition r_intersection (a b : Geom) : res Geom :=
  guard (corrupt a || corrupt b) (mkGeom (gtype a) (meet (cells a) (cells b)) false).

Definition r_difference (a b : Geom) : res Geom :=
  guard (corrupt a || corrupt b) (mkGeom (gtype a) (minus (cells a) (cells b)) false).

Definition neighbours (c : Z * Z) : list (Z * Z) :=
  let '(x, y) := c in
  [(x - 1, y); (x + 1, y); (x, y - 1); (x, y + 1)]%Z.

(** A positive distance grows the set by one ring of cells. *)
Definition r_buffer (a : Geom) (d : Q) : res Geom :=
  guard (corrupt a)
    (if Qle_bool d 0 then a
     else mkGeom (gtype a) (dedup (cells a ++ List.flat_map neighbours (cells a))) false).

Definition r_unary_union (l : list Geom) : res Geom :=
  guard (existsb corrupt l)
    (mkGeom GeometryCollection (dedup (List.flat_map cells l)) false).

Definition r_area (g : Geom) : res Q :=
  Ok (match gtype g with
      | Polygon | MultiPolygon => inject_Z (Z.of_nat (length (cells g)))
      | _ => 0%Q
      end).

Definition r_coords_first (g : Geom) : res Geom :=
  match cells g with
  | [] => Raise (IndexError "index out of range")
  | c :: _ => Ok (mkGeom Point [c] false)
  end.

Definition r_coords_last (g : Geom) : res Geom :=
  match List.rev (cells g) with
  | [] => Raise (IndexError "index out of range")
  | c :: _ => Ok (mkGeom Point [c] false)
  end.

#[export] Instance kernel : GeometryKernel Geom := {|
  geom_type := gtype;
  bounds := r_bounds;
  intersects := r_intersects;
  overlaps := r_overlaps;
  contains := r_contains;
  intersection := r_intersection;
  difference := r_difference;
  buffer := r_buffer;
  unary_union := r_unary_union;
  is_valid := fun g => Ok (negb (corrupt g));
  is_simple := fun _ => Ok true;
  is_empty := fun g => Ok (is_nil (cells g));
  area := r_area;
  coords_first := r_coords_first;
  coords_last := r_coords_last
|}.

(** The cells [x0 <= x < x0 + w], [y0 <= y < y0 + h]. *)
Definition box (x0 y0 : Z) (w h : nat) : list (Z * Z) :=
  List.flat_map (fun i => List.map (fun j => ((x0 + Z.of_nat i)%Z, (y0 + Z.of_nat j)%Z)) (seq 0 h))
                (seq 0 w).

Definition polygon (x0 y0 : Z) (w h : nat) : Geom := mkGeom Polygon (box x0 y0 w h) false.
Definition multipolygon (cs : list (Z * Z)) : Geom := mkGeom MultiPolygon cs false.
Definition line (cs : list (Z * Z)) : Geom := mkGeom LineString cs false.

(** An instance freshly constructed over [features]: default configuration,
    no exception rules, nothing cached, nothing printed. *)
Definition default_config : Config :=
  mkConfig (Some "id") (Some "TopologyTest_Output")
           (Some (list_to_map [("intersections", true); ("self_intersections", true);
                               ("gaps", true); ("dangles", true);
                               ("overlaps", true); ("containment", true)]))
           (Some (list_to_map [("gap", 0%Q); ("overlap", 0%Q)]))
           None (Some []) (Some []).

Definition fresh (features : list (Geom * gmap string Scalar)) : World :=
  mkWorld (mkTopologyTest "buildings" default_config (mkRules (Some []) (Some []))
                          features None)
          [] [].

End Raster.

(** ** Vocabulary of the statements *)

Section Vocabulary.
Context {Geom : Type} `{K : GeometryKernel Geom}.
Local Abbreviation Feature := (@Feature Geom).
Local Abbreviation IntersectionIssue := (@IntersectionIssue Geom).
Local Abbreviation PairIssue := (@PairIssue Geom).
Local Abbreviation TopologyTest := (@TopologyTest Geom).
Local Abbreviation World := (@World Geom).
Local Abbreviation M := (@M Geom).
Local Abbreviation CheckResult := (@CheckResult Geom).

(** A computation that neither reads nor writes the world. *)
Definition stateless {A} (m : M A) : Prop :=
  forall w, snd (m w) = w /\ forall w', fst (m w) = fst (m w').

(** The world in which [allow_overlap_if] reads [c_rules] in [self.rules] and
    [c_config] in [self.config], everything else as in [w]. *)
Definition set_allow_overlap_if (c_rules c_config : option (list Condition))
    (w : World) : World :=
  let s := self w in
  let c := config s in
  mkWorld
    (mkTopologyTest (dataset_type s)
       (mkConfig (id_attribute c) (output_folder_name c) (enabled_checks c)
                 (tolerances c) (min_intersection_area c)
                 (config_allow_intersection_if c) c_config)
       (mkRules (allow_intersection_if (rules s)) c_rules)
       (geometries s) (invalid_intersections s))
    (stdout w) (probes w).

(** The geometries the gap check hands to [unary_union]. *)
Definition polygons_of (gdf : list Feature) : list Geom :=
  (filter (fun f : Feature => isinstance_Polygon (fst f) = true) gdf).*1.

(** The gap region: the buffered union minus the original union. *)
Definition gap_region (polygons : list Geom) (tolerance : Q) : res Geom :=
  match unary_union polygons with
  | Ok all_polys =>
      match buffer all_polys tolerance with
      | Ok buffered => difference buffered all_polys
      | Raise e => Raise e
      end
  | Raise e => Raise e
  end.

(** *** The intersection check, pair by pair *)

(** Rows whose bounding box meets that of [row]: what
    [gdf.iloc[list(sindex.intersection(row.geometry.bounds))]] holds. *)
Definition matches_of (gdf : list Feature) (row : Feature) : list (nat * Feature) :=
  filter (fun r : nat * Feature =>
            bbox_intersects (bounds (fst row)) (bounds (fst (snd r))) = true)
         (iterrows gdf).

(** The pairs that pass the guard [idx >= match.name], in loop order. *)
Definition candidate_pairs (gdf : list Feature)
    : list ((nat * Feature) * (nat * Feature)) :=
  concat ((fun r : nat * Feature =>
             (fun m : nat * Feature => (r, m)) <$>
             filter (fun m : nat * Feature => (fst r < fst m)%nat)
                    (matches_of gdf (snd r)))
          <$> iterrows gdf).

(** The index pair of a candidate. *)
Definition label (p : (nat * Feature) * (nat * Feature)) : nat * nat :=
  (fst (fst p), fst (snd p)).

(** What the [try] block yields for one pair: the issue, if the intersection
    geometry is computed, valid and large enough. *)
Definition flagged (s : TopologyTest) (row mrow : Feature) : option IntersectionIssue :=
  match intersection (fst row) (fst mrow) with
  | Ok inter_geom =>
      match is_valid inter_geom with
      | Ok true =>
          match area inter_geom with
          | Ok a =>
              if Qle_bool (default 0%Q (min_intersection_area (config s))) a
              then Some (fst row, fst mrow, inter_geom, snd row, snd mrow)
              else None
          | Raise _ => None
          end
      | _ => None
      end
  | Raise _ => None
  end.

(** The issues one evaluated pair contributes, or the exception it raises. *)
Definition pair_outcome (s : TopologyTest) (row mrow : Feature)
    : res (list IntersectionIssue) :=
  match intersects (fst row) (fst mrow) with
  | Raise e => Raise e
  | Ok false => Ok []
  | Ok true =>
      if _is_valid_intersection s (snd row) (snd mrow) then Ok []
      else Ok (option_list (flagged s row mrow))
  end.

(** Evaluating candidates one after the other, recording each in the trace. *)
Fixpoint run_pairs (s : TopologyTest) (ps : list ((nat * Feature) * (nat * Feature)))
    (acc : list IntersectionIssue) (trace : list (nat * nat))
    : res (list IntersectionIssue) * list (nat * nat) :=
  match ps with
  | [] => (Ok acc, trace)
  | p :: ps' =>
      match pair_outcome s (snd (fst p)) (snd (snd p)) with
      | Ok l => run_pairs s ps' (acc ++ l) (trace ++ [label p])
      | Raise e => (Raise e, trace ++ [label p])
      end
  end.

(** [self.invalid_intersections = v] *)
Definition with_cache (v : option (list IntersectionIssue)) (s : TopologyTest)
    : TopologyTest :=
  mkTopologyTest (dataset_type s) (config s) (rules s) (geometries s) v.

(** *** The rule evaluator *)

(** Some condition is met through a value that one of the two features
    really carries under the condition's attribute. *)
Definition satisfied_by_present_value (conditions : list Condition)
    (attr1 attr2 : gmap string Scalar) : Prop :=
  exists c k v,
    c ∈ conditions /\ attribute c = Some k /\
    (attr1 !! k = Some v \/ attr2 !! k = Some v) /\
    py_in v (default [] (values c)) = true.

(** *** The orchestrator, stage by stage *)

(** What never changes during a run: the features and the configuration. *)
Definition same_inputs (w0 w : World) : Prop :=
  geometries (self w) = geometries (self w0) /\
  config (self w) = config (self w0).

(** [results[name] = v] when there is something to store. *)
Definition insert_opt (name : string) (o : option CheckResult)
    (results : gmap string CheckResult) : gmap string CheckResult :=
  match o with
  | Some v => <[name := v]> results
  | None => results
  end.

Definition res_map {A B} (f : A -> B) (r : res A) : res B :=
  match r with
  | Ok a => Ok (f a)
  | Raise e => Raise e
  end.

(** One of the six blocks of [validate_topology]: the key it writes, whether
    the check is enabled, and what the check gives when run: the value to
    store (none for "no gaps") or the exception that leaves the check. *)
Record Stage : Type := mkStage {
  stage_name : string;
  stage_on : bool;
  stage_outcome : res (option CheckResult)
}.

Definition stages (w : World) : list Stage :=
  let s := self w in
  [ mkStage "intersections" (enabled s "intersections")
      (res_map (fun r => Some (RIntersections r)) (fst (check_intersections w)));
    mkStage "self_intersections" (enabled s "self_intersections")
      (res_map (fun r => Some (RFeatures r)) (fst (check_self_intersections w)));
    mkStage "gaps" (enabled s "gaps")
      (res_map (fun g => RGaps <$> g) (fst (check_gaps 0%Q w)));
    mkStage "dangles" (enabled s "dangles")
      (res_map (fun r => Some (RFeatures r)) (fst (check_dangles w)));
    mkStage "overlaps" (enabled s "overlaps")
      (res_map (fun r => Some (RPairs r)) (fst (check_overlaps 0%Q w)));
    mkStage "containment" (enabled s "containment")
      (res_map (fun r => Some (RPairs r)) (fst (check_containment w))) ].

(** Running stages in order: the first enabled stage that raises ends the
    run; otherwise the non-empty results are kept. *)
Fixpoint run_stages (l : list Stage) (results : gmap string CheckResult)
    : res (gmap string CheckResult) :=
  match l with
  | [] => Ok (filter (fun kv : string * CheckResult => keep_result (snd kv) = true) results)
  | st :: l' =>
      if stage_on st then
        match stage_outcome st with
        | Ok o => run_stages l' (insert_opt (stage_name st) o results)
        | Raise e => Raise e
        end
      else run_stages l' results
  end.

(** *** The loops of the other checks *)

(** A feature the self-intersection check reports. *)
Definition non_simple (f : Feature) : bool :=
  match is_simple (fst f) with
  | Ok false => true
  | _ => false
  end.

(** The pairs the overlap and containment loops visit, in loop order: each
    row with the rows of [gdf.iloc[idx1+1:]]. *)
Definition later_pairs (gdf : list Feature)
    : list ((nat * Feature) * (nat * Feature)) :=
  concat ((fun r1 : nat * Feature =>
             (fun r2 : nat * Feature => (r1, r2)) <$> iloc_from gdf (fst r1 + 1))
          <$> iterrows gdf).

(** What the body of the overlap loop does with one pair. *)
Definition overlap_test (tolerance : Q) (row1 row2 : Feature)
    : res (option PairIssue) :=
  match overlaps (fst row1) (fst row2) with
  | Raise e => Raise e
  | Ok false => Ok None
  | Ok true =>
      match intersection (fst row1) (fst row2) with
      | Raise e => Raise e
      | Ok inter_geom =>
          match area inter_geom with
          | Raise e => Raise e
          | Ok overlap_area =>
              if negb (Qle_bool overlap_area tolerance)
              then Ok (Some (fst row1, fst row2, snd row1, snd row2))
              else Ok None
          end
      end
  end.

(** What the body of the containment loop does with one pair. *)
Definition containment_test (row1 row2 : Feature) : res (option PairIssue) :=
  match contains (fst row1) (fst row2) with
  | Raise e => Raise e
  | Ok true => Ok (Some (fst row1, fst row2, snd row1, snd row2))
  | Ok false => Ok None
  end.

(** Visiting pairs in order, appending what each one yields. *)
Fixpoint collect (test : Feature -> Feature -> res (option PairIssue))
    (ps : list ((nat * Feature) * (nat * Feature))) (acc : list PairIssue)
    : res (list PairIssue) :=
  match ps with
  | [] => Ok acc
  | p :: ps' =>
      match test (snd (fst p)) (snd (snd p)) with
      | Ok (Some x) => collect test ps' (acc ++ [x])
      | Ok None => collect test ps' acc
      | Raise e => Raise e
      end
  end.

(** The line the gap check prints when it catches [e]. *)
Definition gaps_error_line (e : PyExc) : string :=
  ("Error checking for gaps: " ++ str_exc e)%string.

(** The world in which the settings [validate_topology] has no use for are
    replaced: the dataset type, [id_attribute], [output_folder_name],
    [tolerances], the configuration's copies of the two condition lists and
    the rules' [allow_overlap_if]. *)
Definition set_unused_settings (dt : string) (ida ofn : option string)
    (tol : option (gmap string Q)) (cai cao rao : option (list Condition))
    (w : World) : World :=
  let s := self w in
  let c := config s in
  mkWorld
    (mkTopologyTest dt
       (mkConfig ida ofn (enabled_checks c) tol (min_intersection_area c) cai cao)
       (mkRules (allow_intersection_if (rules s)) rao)
       (geometries s) (invalid_intersections s))
    (stdout w) (probes w).

(** The names of the six checks. *)
Definition check_names : list string :=
  ["intersections"; "self_intersections"; "gaps"; "dangles"; "overlaps";
   "containment"].

(** A computation that leaves the instance and the trace of evaluated pairs
    as they are (it may print). *)
Definition keeps_self {A} (m : M A) : Prop :=
  forall w, self (snd (m w)) = self w /\ probes (snd (m w)) = probes w.

End Vocabulary.

(** ** Concrete scenarios (raster kernel) *)

Module Scenarios.
Import Raster.

(** A 3x3 square and a single cell inside it. *)
Definition outer_square : Geom := polygon 0 0 3 3.
Definition inner_square : Geom := polygon 1 1 1 1.

(** The contained feature listed first, its container second. *)
Definition inner_then_outer : World := fresh [(inner_square, ∅); (outer_square, ∅)].
Definition outer_then_inner : World := fresh [(outer_square, ∅); (inner_square, ∅)].

(** One line that touches nothing else. *)
Definition isolated_line : World := fresh [(line [(0, 0); (1, 0)]%Z, ∅)].


(** Two disjoint cells with a free cell between them, as MultiPolygon
    features and as Polygon features. *)
Definition scattered_multipolygons : World :=
  fresh [(multipolygon [(0, 0)]%Z, ∅); (multipolygon [(2, 0)]%Z, ∅)].
Definition scattered_polygons : World :=
  fresh [(polygon 0 0 1 1, ∅); (polygon 2 0 1 1, ∅)].

(** A polygon the kernel cannot process, alone and beside valid features. *)
Definition corrupt_square : Geom := mkGeom Polygon (box 0 0 2 2) true.
Definition far_corrupt_square : Geom := mkGeom Polygon (box 10 10 2 2) true.
Definition overlapping_square : Geom := polygon 1 1 2 2.

Definition corrupt_alone : World := fresh [(corrupt_square, ∅)].
Definition corrupt_pair : World :=
  fresh [(corrupt_square, ∅); (overlapping_square, ∅)].

(** The default configuration with the dangle check switched off. *)
Definition config_without_dangles : Config :=
  mkConfig (Some "id") (Some "TopologyTest_Output")
           (Some (list_to_map [("dangles", false)]))
           None None (Some []) (Some []).

Definition nested_beside_corrupt : World :=
  mkWorld (mkTopologyTest "buildings" config_without_dangles
             (mkRules (Some []) (Some []))
             [(outer_square, ∅); (inner_square, ∅); (far_corrupt_square, ∅)]
             None)
          [] [].

(** Rule sets for the evaluator. *)
Definition bridge_condition : Condition :=
  mkCondition (Some "type") (Some [SStr "bridge"]).
Definition null_condition : Condition :=
  mkCondition (Some "type") (Some [SNull]).

Definition with_conditions (conditions : list Condition) : @TopologyTest Geom :=
  mkTopologyTest "roads" default_config (mkRules (Some conditions) (Some []))
                 [] None.

Definition bridge_attrs : gmap string Scalar := {[ "type" := SStr "bridge" ]}.
Definition road_attrs : gmap string Scalar := {[ "type" := SStr "road" ]}.

End Scenarios.

(** ** Construction and reporting

    The code around the checks: loading the configuration and the rules
    when an instance is built, and the reports.  These raise exceptions of
    their own, next to those that leave a check. *)

#[warnings="-register-all"] Inductive JSON : Type :=
  | JNull
  | JBool (b : bool)
  | JNum (q : Q)
  | JStr (s : string)
  | JList (l : list JSON)
  | JDict (d : gmap string JSON).

Inductive PyError : Type :=
  | FileNotFoundError (msg : string)
  | ValueError (msg : string)
  | ZeroDivisionError (msg : string)
  | AttributeError (msg : string)
  | Escaped (e : PyExc).              (* an exception that left a check *)

Inductive outcome (A : Type) : Type :=
  | Returns (a : A)
  | Raises (e : PyError).
Arguments Returns {A} a.
Arguments Raises {A} e.

(** [os.path.exists(path)] over the files on disk, each given by the document
    [json.load] reads from it (files are taken to hold well-formed JSON); the
    empty path names no file. *)
Definition path_exists {A} (files : gmap string A) (path : string) : bool :=
  if String.eqb path "" then false
  else match files !! path with
       | Some _ => true
       | None => false
       end.

(** [if config_file and os.path.exists(config_file)] *)
Definition given_and_exists {A} (files : gmap string A) (path : string) : bool :=
  negb (String.eqb path "") && path_exists files path.

(** *** The version with [validate_topology] *)

Module V150527.

(** A configuration file: a JSON object whose sections, when present, are
    objects, and whose dataset entries are objects. *)
Record ConfigDocument : Type := mkConfigDocument {
  global_settings : option (gmap string JSON);
  dataset_rules : option (gmap string (gmap string JSON))
}.

(** [section in config] *)
Definition has_section (doc : ConfigDocument) (section : string) : bool :=
  if String.eqb section "global_settings" then
    match global_settings doc with Some _ => true | None => false end
  else if String.eqb section "dataset_rules" then
    match dataset_rules doc with Some _ => true | None => false end
  else false.

Definition default_config : gmap string JSON :=
  list_to_map
    [("id_attribute", JStr "id");
     ("output_folder_name", JStr "TopologyTest_Output");
     ("enabled_checks",
      JDict (list_to_map [("intersections", JBool true);
                          ("self_intersections", JBool true);
                          ("gaps", JBool true);
                          ("dangles", JBool true);
                          ("overlaps", JBool true);
                          ("containment", JBool true)]));
     ("tolerances", JDict (list_to_map [("gap", JNum 0); ("overlap", JNum 0)]));
     ("allow_intersection_if", JList []);
     ("allow_overlap_if", JList [])].

Definition _load_config (files : gmap string ConfigDocument) (dataset_type : string)
    (config_file : string) : gmap string JSON :=
  if given_and_exists files config_file then
    match files !! config_file with
    | Some full_config =>
        let config := default ∅ (global_settings full_config) in
        let dataset_rules :=
          default ∅ (default ∅ (dataset_rules full_config) !! dataset_type) in
        (* config.update(dataset_rules) *)
        dataset_rules ∪ config
    | None => default_config
    end
  else default_config.

Definition _load_rules (files : gmap string ConfigDocument) (dataset_type : string)
    (config_file : string) : outcome (gmap string JSON) :=
  if negb (path_exists files config_file) then
    Raises (FileNotFoundError ("Config file not found: " ++ config_file)%string)
  else
    match files !! config_file with
    | Some config =>
        match default ∅ (dataset_rules config) !! dataset_type with
        | Some dataset_rules =>
            if bool_decide (dataset_rules = ∅)           (* not dataset_rules *)
            then Raises (ValueError ("Dataset type '" ++ dataset_type
                                     ++ "' not found in config.")%string)
            else Returns dataset_rules
        | None => Raises (ValueError ("Dataset type '" ++ dataset_type
                                      ++ "' not found in config.")%string)
        end
    | None => Raises (FileNotFoundError ("Config file not found: " ++ config_file)%string)
    end.

(** The two [for] loops of [_validate_config_structure]. *)
Fixpoint require_sections (config : ConfigDocument) (sections : list string)
    : outcome unit :=
  match sections with
  | [] => Returns tt
  | section :: rest =>
      if negb (has_section config section) then
        Raises (ValueError ("Missing required section '" ++ section
                            ++ "' in config file")%string)
      else require_sections config rest
  end.

Fixpoint require_settings (settings : gmap string JSON) (names : list string)
    : outcome unit :=
  match names with
  | [] => Returns tt
  | setting :: rest =>
      match settings !! setting with
      | None => Raises (ValueError ("Missing required global setting '" ++ setting
                                    ++ "'")%string)
      | Some _ => require_settings settings rest
      end
  end.

Definition _validate_config_structure (dataset_type : string)
    (config : ConfigDocument) : outcome unit :=
  match require_sections config ["global_settings"; "dataset_rules"] with
  | Raises e => Raises e
  | Returns _ =>
      match require_settings (default ∅ (global_settings config))
                             ["enabled_checks"; "tolerances"] with
      | Raises e => Raises e
      | Returns _ =>
          match default ∅ (dataset_rules config) !! dataset_type with
          | None => Raises (ValueError ("Dataset type '" ++ dataset_type
                                        ++ "' not found in config")%string)
          | Some _ => Returns tt
          end
      end
  end.

Section Init.
Context {Geom : Type}.

(** The instance as [__init__] leaves it, the settings still as loaded. *)
Record Instance : Type := mkInstance {
  i_geojson_file : string;
  i_dataset_type : string;
  i_config : gmap string JSON;
  i_rules : gmap string JSON;
  i_geometries : list (@Feature Geom);
  i_invalid_intersections : option (list (@IntersectionIssue Geom))
}.

(** [__init__]; reading the features is left to [_load_geometries], which
    rests on the data-frame library and is taken as given. *)
Definition __init__
    (_load_geometries : string -> outcome (list (@Feature Geom)))
    (files : gmap string ConfigDocument)
    (geojson_file dataset_type config_file : string) : outcome Instance :=
  let config := _load_config files dataset_type config_file in
  match _load_rules files dataset_type config_file with
  | Raises e => Raises e
  | Returns rules =>
      match _load_geometries geojson_file with
      | Raises e => Raises e
      | Returns geometries =>
          Returns (mkInstance geojson_file dataset_type config rules geometries None)
      end
  end.

End Init.

(** Attributes an instance of this version has: what [__init__] sets and
    the methods of the class. *)
Definition instance_attributes : list string :=
  ["geojson_file"; "dataset_type"; "config"; "rules"; "geometries";
   "invalid_intersections";
   "__init__"; "_load_config"; "_validate_config_structure"; "_load_geometries";
   "_load_rules"; "check_intersections"; "_is_valid_intersection";
   "save_topology_results"; "report_invalid_intersections";
   "check_self_intersections"; "check_gaps"; "check_dangles"; "check_overlaps";
   "check_containment"; "validate_topology"; "report_summary";
   "_save_issues_to_geojson"].

Section Reports.
Context {Geom : Type} `{K : GeometryKernel Geom}.

(** What [self.<name>] raises for a name that is no attribute. *)
Definition no_attribute (name : string) : PyError :=
  AttributeError ("'TopologyTest' object has no attribute '" ++ name ++ "'")%string.

(** [self.<name>]: the error, if any, of looking the attribute up. *)
Definition getattr_self (name : string) : option PyError :=
  if bool_decide (name ∈ instance_attributes) then None
  else Some (no_attribute name).

(** [report_invalid_intersections], up to the call that is to save the
    issues: [save_invalid_intersections] is no attribute of this version, so
    looking it up raises and the rest of the method is never run. *)
Definition report_invalid_intersections (w : @World Geom)
    : outcome string * @World Geom :=
  match check_intersections w with
  | (Raise e, w') => (Raises (Escaped e), w')
  | (Ok invalid_intersections, w') =>
      match invalid_intersections with
      | [] =>
          (Returns ("No invalid intersections found in dataset: "
                    ++ dataset_type (self w') ++ ".")%string, w')
      | _ =>
          (* output_file = self.save_invalid_intersections(...) *)
          (Raises (no_attribute "save_invalid_intersections"), w')
      end
  end.

End Reports.

End V150527.

(** *** The version with the intersection check only *)

Module Current.

Section Summary.
Context {Geom : Type} `{K : GeometryKernel Geom}.

(** [attr.get(self.config.get("id_attribute", "id"), 'N/A')] *)
Definition feature_id (s : @TopologyTest Geom) (attr : gmap string Scalar) : Scalar :=
  default (SStr "N/A") (attr !! default "id" (id_attribute (config s))).

(** [ids.add(x)] on a set kept as the list of its elements. *)
Definition set_add (x : Scalar) (ids : list Scalar) : list Scalar :=
  if existsb (py_eq x) ids then ids else ids ++ [x].

(** The loop that collects the ids of the features met in an issue. *)
Fixpoint intersected_ids (s : @TopologyTest Geom)
    (invalid : list (@IntersectionIssue Geom)) (ids : list Scalar) : list Scalar :=
  match invalid with
  | [] => ids
  | (_, _, _, attr1, attr2) :: rest =>
      let id1 := feature_id s attr1 in
      let id2 := feature_id s attr2 in
      intersected_ids s rest (set_add id2 (set_add id1 ids))
  end.

(** The numbers [report_summary] prints (the two ratios with two decimals). *)
Record Summary : Type := mkSummary {
  total_geometries : nat;
  num_intersected_geometries : nat;
  average_intersections : Q;
  percentage_intersected : Q
}.

Definition ratio (a b : nat) : Q := inject_Z (Z.of_nat a) / inject_Z (Z.of_nat b).

Definition report_summary (w : @World Geom) : outcome Summary * @World Geom :=
  match check_intersections w with
  | (Raise e, w') => (Raises (Escaped e), w')
  | (Ok invalid_intersections, w') =>
      let total_geometries := length (geometries (self w')) in
      let ids := intersected_ids (self w') invalid_intersections [] in
      let num_intersected_geometries := length ids in
      let average_intersections :=
        if (num_intersected_geometries =? 0)%nat then 0%Q
        else ratio (length invalid_intersections) num_intersected_geometries in
      if (total_geometries =? 0)%nat then
        (Raises (ZeroDivisionError "division by zero"), w')
      else
        (Returns (mkSummary total_geometries num_intersected_geometries
                            average_intersections
                            (ratio num_intersected_geometries total_geometries * 100)),
         w')
  end.

End Summary.

End Current.


(** ** Further scenarios *)

Module MoreScenarios.
Import Raster Scenarios.

(** Every check switched off. *)
Definition config_all_disabled : Config :=
  mkConfig (Some "id") (Some "TopologyTest_Output")
           (Some (list_to_map [("intersections", false); ("self_intersections", false);
                               ("gaps", false); ("dangles", false);
                               ("overlaps", false); ("containment", false)]))
           None None (Some []) (Some []).

Definition nothing_enabled : World :=
  mkWorld (mkTopologyTest "buildings" config_all_disabled
             (mkRules (Some []) (Some []))
             [(outer_square, ∅); (inner_square, ∅)] None)
          [] [].

(** What [validate_topology] returns on [nested_beside_corrupt]. *)
Definition nested_results : gmap string (@CheckResult Geom) :=
  <["containment" := RPairs [(outer_square, inner_square, ∅, ∅)]]>
    (<["intersections" :=
         RIntersections [(outer_square, inner_square, inner_square, ∅, ∅)]]> ∅).

Definition no_features : World := fresh [].

(** A configuration file with one dataset type that has rules, and one whose
    entry is empty. *)
Definition roads_rules : gmap string JSON :=
  list_to_map [("allow_intersection_if", JList []);
               ("tolerances", JDict (list_to_map [("gap", JNum 1)]))].

Definition global : gmap string JSON :=
  list_to_map [("id_attribute", JStr "fid");
               ("enabled_checks", JDict ∅);
               ("tolerances", JDict (list_to_map [("gap", JNum 0)]))].

Definition config_json : V150527.ConfigDocument :=
  V150527.mkConfigDocument
    (Some global)
    (Some (list_to_map [("roads", roads_rules); ("rivers", ∅)])).

Definition disk : gmap string V150527.ConfigDocument :=
  {[ "config.json" := config_json ]}.

Definition read_one_line (path : string) : outcome (list (Geom * gmap string Scalar)) :=
  Returns [(line [(0, 0); (1, 0)]%Z, ∅)].





End MoreScenarios.


(** * Properties *)

(** ** Reasoning about the monad *)

Section MonadFacts.
Context {Geom : Type} `{K : GeometryKernel Geom}.
Local Abbreviation World := (@World Geom).
Local Abbreviation M := (@M Geom).
Local Abbreviation Feature := (@Feature Geom).

Lemma stateless_ret {A} (a : A) : stateless (ret a : M A).
Proof. intros w. split; [reflexivity | intros w'; reflexivity]. Qed.

Lemma stateless_raise {A} (e : PyExc) : stateless (raise e : M A).
Proof. intros w. split; [reflexivity | intros w'; reflexivity]. Qed.

Lemma stateless_lift {A} (r : res A) : stateless (lift r : M A).
Proof. intros w. split; [reflexivity | intros w'; reflexivity]. Qed.

Lemma stateless_bind {A B} (m : M A) (k : A -> M B) :
  stateless m -> (forall a, stateless (k a)) -> stateless (bind m k).
Proof.
  intros Hm Hk w. unfold bind.
  destruct (Hm w) as [Hw Hv].
  split.
  - destruct (m w) as [[a|e] w1] eqn:E; simpl in *; subst w1.
    + apply Hk.
    + reflexivity.
  - intros w'. specialize (Hv w').
    destruct (Hm w') as [Hw' _].
    destruct (m w) as [[a|e] w1] eqn:E, (m w') as [[a'|e'] w1'] eqn:E';
      simpl in *; subst; try discriminate.
    + injection Hv as ->. apply Hk.
    + injection Hv as ->. reflexivity.
Qed.

Lemma stateless_load_global (name : string) : stateless (load_global name : M unit).
Proof.
  unfold load_global. destruct (bool_decide _);
    [apply stateless_ret | apply stateless_raise].
Qed.

Lemma stateless_for_each {A B} (l : list A) (body : B -> A -> M B) :
  (forall acc x, stateless (body acc x)) ->
  forall acc, stateless (for_each l body acc).
Proof.
  intros Hb. induction l as [|x l IH]; intros acc; simpl.
  - apply stateless_ret.
  - apply stateless_bind; [apply Hb | intros a; apply IH].
Qed.

(** A stateless computation gives the same value in any two worlds. *)
Lemma stateless_value {A} (m : M A) (w w' : World) :
  stateless m -> fst (m w) = fst (m w').
Proof. intros H. apply H. Qed.

Lemma stateless_world {A} (m : M A) (w : World) :
  stateless m -> snd (m w) = w.
Proof. intros H. apply H. Qed.

End MonadFacts.

Ltac stateless_step :=
  match goal with
  | |- stateless (bind _ _) => apply stateless_bind; [| intros ?]
  | |- stateless (ret _) => apply stateless_ret
  | |- stateless (raise _) => apply stateless_raise
  | |- stateless (lift _) => apply stateless_lift
  | |- stateless (load_global _) => apply stateless_load_global
  | |- stateless (for_each _ _ _) => apply stateless_for_each; intros ? ?
  | |- stateless (if ?b then _ else _) => destruct b
  | |- stateless (let '(_, _) := ?p in _) => destruct p
  end.

Ltac solve_stateless := repeat stateless_step.

(** ** What each check reads and writes *)

Section Frames.
Context {Geom : Type} `{K : GeometryKernel Geom}.
Local Abbreviation World := (@World Geom).

Ltac reads_geometries_only :=
  intros;
  match goal with
  | H : geometries (self _) = geometries (self _) |- _ =>
      unfold bind at 1; unfold get_self; cbn beta iota;
      symmetry; unfold bind at 1; cbn beta iota; symmetry;
      rewrite H; apply stateless_value; solve_stateless
  | |- snd _ = _ =>
      unfold bind at 1; unfold get_self; cbn beta iota;
      apply stateless_world; solve_stateless
  end.

Lemma check_self_intersections_value (w w' : World) :
  geometries (self w) = geometries (self w') ->
  fst (check_self_intersections w) = fst (check_self_intersections w').
Proof. unfold check_self_intersections. reads_geometries_only. Qed.

Lemma check_self_intersections_world (w : World) :
  snd (check_self_intersections w) = w.
Proof. unfold check_self_intersections. reads_geometries_only. Qed.

Lemma check_dangles_value (w w' : World) :
  geometries (self w) = geometries (self w') ->
  fst (check_dangles w) = fst (check_dangles w').
Proof. unfold check_dangles. reads_geometries_only. Qed.

Lemma check_dangles_world (w : World) : snd (check_dangles w) = w.
Proof. unfold check_dangles. reads_geometries_only. Qed.

Lemma check_overlaps_value (tolerance : Q) (w w' : World) :
  geometries (self w) = geometries (self w') ->
  fst (check_overlaps tolerance w) = fst (check_overlaps tolerance w').
Proof. unfold check_overlaps. reads_geometries_only. Qed.

Lemma check_overlaps_world (tolerance : Q) (w : World) :
  snd (check_overlaps tolerance w) = w.
Proof. unfold check_overlaps. reads_geometries_only. Qed.

Lemma check_containment_value (w w' : World) :
  geometries (self w) = geometries (self w') ->
  fst (check_containment w) = fst (check_containment w').
Proof. unfold check_containment. reads_geometries_only. Qed.

Lemma check_containment_world (w : World) : snd (check_containment w) = w.
Proof. unfold check_containment. reads_geometries_only. Qed.

End Frames.

(** ** The gap check *)

Section Gaps.
Context {Geom : Type} `{K : GeometryKernel Geom}.
Local Abbreviation World := (@World Geom).
Local Abbreviation Feature := (@Feature Geom).

(** The value of [check_gaps], by cases on what the kernel answers. *)
Lemma check_gaps_cases (tolerance : Q) (w : World) :
  fst (check_gaps tolerance w) =
  match polygons_of (geometries (self w)) with
  | [] => Ok None
  | polygons =>
      match gap_region polygons tolerance with
      | Raise _ => Ok None
      | Ok gaps =>
          match is_empty gaps with
          | Ok false => Ok (Some gaps)
          | _ => Ok None
          end
      end
  end.
Proof.
  unfold check_gaps, polygons_of, gap_region.
  unfold bind at 1. unfold get_self. cbn beta iota.
  destruct (geometries (self w)) as [|f gdf] eqn:Eg; [reflexivity|].
  destruct ((filter _ (f :: gdf)).*1) as [|p ps] eqn:Ep; [reflexivity|].
  unfold try_except, bind, lift, ret, print.
  destruct (unary_union (p :: ps)) as [u|e]; [|reflexivity].
  destruct (buffer u tolerance) as [b|e]; [|reflexivity].
  destruct (difference b u) as [g|e]; [|reflexivity].
  destruct (is_empty g) as [[|]|e]; reflexivity.
Qed.

(** The gap check changes nothing of the instance and evaluates no pair. *)
Lemma check_gaps_world (tolerance : Q) (w : World) :
  self (snd (check_gaps tolerance w)) = self w /\
  probes (snd (check_gaps tolerance w)) = probes w.
Proof.
  destruct (check_gaps tolerance w) as [r w'] eqn:E.
  unfold check_gaps in E.
  unfold bind at 1 in E. unfold get_self in E. cbn beta iota in E.
  destruct (geometries (self w)) as [|f gdf] eqn:Eg;
    [inversion E; split; reflexivity|].
  destruct ((filter _ (f :: gdf)).*1) as [|p ps] eqn:Ep;
    [inversion E; split; reflexivity|].
  unfold try_except, bind, lift, ret, print in E.
  destruct (unary_union (p :: ps)) as [u|e]; [|inversion E; split; reflexivity].
  destruct (buffer u tolerance) as [b|e]; [|inversion E; split; reflexivity].
  destruct (difference b u) as [g|e]; [|inversion E; split; reflexivity].
  destruct (is_empty g) as [[|]|e]; inversion E; split; reflexivity.
Qed.

Lemma check_gaps_value (tolerance : Q) (w w' : World) :
  geometries (self w) = geometries (self w') ->
  fst (check_gaps tolerance w) = fst (check_gaps tolerance w').
Proof. intros H. rewrite !check_gaps_cases, H. reflexivity. Qed.

(** The gap check always returns. *)
Lemma check_gaps_is_ok (tolerance : Q) (w : World) :
  is_ok (fst (check_gaps tolerance w)) = true.
Proof.
  rewrite check_gaps_cases.
  destruct (polygons_of (geometries (self w))) as [|p ps]; [reflexivity|].
  destruct (gap_region (p :: ps) tolerance) as [g|e]; [|reflexivity].
  destruct (is_empty g) as [[|]|e]; reflexivity.
Qed.

(** A failure of the gap region is a failure of the union, of the buffer
    or of the difference. *)
Lemma gap_region_raise (polygons : list Geom) (tolerance : Q) (e : PyExc) :
  gap_region polygons tolerance = Raise e <->
  unary_union polygons = Raise e \/
  (exists u, unary_union polygons = Ok u /\
     (buffer u tolerance = Raise e \/
      exists b, buffer u tolerance = Ok b /\ difference b u = Raise e)).
Proof.
  unfold gap_region.
  destruct (unary_union polygons) as [u|e1] eqn:Eu.
  - destruct (buffer u tolerance) as [b|e2] eqn:Eb.
    + split.
      * intros H. right. exists u. split; [reflexivity|]. right.
        exists b. split; [exact Eb | exact H].
      * intros [H | (u' & Hu & [H | (b' & Hb & H)])]; try discriminate.
        -- injection Hu as <-. rewrite Eb in H. discriminate.
        -- injection Hu as <-. rewrite Eb in Hb. injection Hb as <-. exact H.
    + split.
      * intros H. right. exists u. split; [reflexivity|]. left.
        rewrite Eb. exact H.
      * intros [H | (u' & Hu & [H | (b' & Hb & H)])]; try discriminate.
        -- injection Hu as <-. rewrite Eb in H. exact H.
        -- injection Hu as <-. rewrite Eb in Hb. discriminate.
  - split.
    + intros H. by left.
    + intros [H | (u' & Hu & _)]; [exact H | discriminate].
Qed.

(** C8. The gap check never raises, and it answers "no gaps" ([None]) when
    the collection has no Polygon feature, when the kernel fails in the
    union, the buffer or the difference, and when the gap region (buffered
    union minus union) is empty. *)
Theorem check_gaps_no_gaps (tolerance : Q) (w : World) :
  let polygons := polygons_of (geometries (self w)) in
  (exists r, fst (check_gaps tolerance w) = Ok r) /\
  (polygons = [] -> fst (check_gaps tolerance w) = Ok None) /\
  (forall e, gap_region polygons tolerance = Raise e ->
             fst (check_gaps tolerance w) = Ok None) /\
  (forall gaps, gap_region polygons tolerance = Ok gaps ->
                is_empty gaps = Ok true ->
                fst (check_gaps tolerance w) = Ok None).
Proof.
  cbv zeta. rewrite check_gaps_cases.
  destruct (polygons_of (geometries (self w))) as [|p ps].
  { repeat split; eauto. }
  split.
  { destruct (gap_region (p :: ps) tolerance) as [g|e]; [|eauto].
    destruct (is_empty g) as [[|]|e]; eauto. }
  split; [discriminate|].
  split; [intros e ->; reflexivity|].
  intros gaps Hg He. rewrite Hg, He. reflexivity.
Qed.

(** C10. Only features whose geometry is a Polygon instance reach the union:
    two collections with the same Polygon geometries get the same answer,
    whatever else they hold, and a collection made of MultiPolygon features
    only is answered "no gaps". *)
Theorem check_gaps_polygon_instances_only (tolerance : Q) (w : World) :
  (forall w' : World,
      polygons_of (geometries (self w)) = polygons_of (geometries (self w')) ->
      fst (check_gaps tolerance w) = fst (check_gaps tolerance w')) /\
  ((forall f : Feature, f ∈ geometries (self w) -> geom_type (fst f) = MultiPolygon) ->
   fst (check_gaps tolerance w) = Ok None).
Proof.
  split.
  - intros w' H. rewrite !check_gaps_cases, H. reflexivity.
  - intros Hall. rewrite check_gaps_cases.
    replace (polygons_of (geometries (self w))) with (@nil Geom); [reflexivity|].
    unfold polygons_of. symmetry.
    induction (geometries (self w)) as [|f gdf IH]; [reflexivity|].
    rewrite filter_cons.
    destruct (decide (isinstance_Polygon (fst f) = true)) as [Hp|Hp].
    + unfold isinstance_Polygon in Hp.
      rewrite (Hall f) in Hp by (left). discriminate.
    + apply IH. intros g Hg. apply Hall. right. exact Hg.
Qed.

End Gaps.

(** ** The intersection check as a run over candidate pairs *)

Section Intersections.
Context {Geom : Type} `{K : GeometryKernel Geom}.
Local Abbreviation World := (@World Geom).
Local Abbreviation Feature := (@Feature Geom).
Local Abbreviation TopologyTest := (@TopologyTest Geom).
Local Abbreviation IntersectionIssue := (@IntersectionIssue Geom).

(** Rows of the frame are exactly the positions of the list. *)
Lemma elem_of_zip_seq (gdf : list Feature) (k j : nat) (f : Feature) :
  (j, f) ∈ zip (seq k (length gdf)) gdf <-> (k <= j)%nat /\ gdf !! (j - k)%nat = Some f.
Proof.
  revert k. induction gdf as [|g gdf IH]; intros k; simpl.
  - split; [intros H; inversion H | intros [_ H]; discriminate].
  - rewrite elem_of_cons, IH. split.
    + intros [Heq | [Hle Hl]].
      * injection Heq as -> ->. split; [lia|]. by rewrite Nat.sub_diag.
      * split; [lia|]. replace (j - k)%nat with (S (j - S k)) by lia. exact Hl.
    + intros [Hle Hl].
      destruct (decide (j = k)) as [->|Hne].
      * left. rewrite Nat.sub_diag in Hl. simpl in Hl. congruence.
      * right. split; [lia|].
        replace (j - k)%nat with (S (j - S k)) in Hl by lia. exact Hl.
Qed.

Lemma elem_of_iterrows (gdf : list Feature) (j : nat) (f : Feature) :
  (j, f) ∈ iterrows gdf <-> gdf !! j = Some f.
Proof.
  unfold iterrows. rewrite elem_of_zip_seq, Nat.sub_0_r.
  split; [tauto | intros H; split; [lia | exact H]].
Qed.

Lemma iterrows_fst (gdf : list Feature) : (iterrows gdf).*1 = seq 0 (length gdf).
Proof. unfold iterrows. apply fst_zip. by rewrite length_seq. Qed.

(** Positions taken from rows of the frame are always in range. *)
Lemma iloc_rows (gdf : list Feature) (rows : list (nat * Feature)) :
  (forall r, r ∈ rows -> r ∈ iterrows gdf) ->
  iloc gdf rows.*1 = Ok rows.
Proof.
  induction rows as [|[j f] rows IH]; intros Hin; [reflexivity|].
  rewrite fmap_cons. cbn [iloc fst].
  assert (gdf !! j = Some f) as ->.
  { apply elem_of_iterrows, Hin. left. }
  rewrite IH; [reflexivity|]. intros r Hr. apply Hin. by right.
Qed.

Lemma iloc_sindex_intersection (gdf : list Feature) (row : Feature) :
  iloc gdf (sindex_intersection gdf (bounds (fst row))) = Ok (matches_of gdf row).
Proof.
  unfold sindex_intersection. apply iloc_rows.
  intros r Hr. unfold matches_of in Hr.
  apply list_elem_of_filter in Hr. tauto.
Qed.


(** One pass through the body of the inner loop. *)
Lemma intersections_inner_step (s : TopologyTest) (idx : nat) (row : Feature)
    (acc : list IntersectionIssue) (name : nat) (mrow : Feature) (w : World) :
  intersections_inner s idx row acc (name, mrow) w =
  if (name <=? idx)%nat then (Ok acc, w)
  else (match pair_outcome s row mrow with
        | Ok l => Ok (acc ++ l)
        | Raise e => Raise e
        end,
        mkWorld (self w) (stdout w) (probes w ++ [(idx, name)])).
Proof.
  unfold intersections_inner, pair_outcome, flagged.
  destruct (name <=? idx)%nat; [reflexivity|].
  unfold bind, probe, lift, try_except, ret.
  destruct (intersects (fst row) (fst mrow)) as [[|]|e];
    rewrite ?app_nil_r; try reflexivity.
  destruct (_is_valid_intersection s (snd row) (snd mrow)); cbn [negb];
    rewrite ?app_nil_r; try reflexivity.
  destruct (intersection (fst row) (fst mrow)) as [g|e]; cbn [option_list];
    rewrite ?app_nil_r; try reflexivity.
  destruct (is_valid g) as [[|]|e]; cbn [negb option_list];
    rewrite ?app_nil_r; try reflexivity.
  destruct (area g) as [a|e]; cbn [option_list];
    rewrite ?app_nil_r; try reflexivity.
  destruct (Qle_bool _ a); cbn [option_list]; rewrite ?app_nil_r; reflexivity.
Qed.

Lemma run_pairs_app (s : TopologyTest) ps1 ps2 acc trace :
  run_pairs s (ps1 ++ ps2) acc trace =
  match run_pairs s ps1 acc trace with
  | (Ok acc', trace') => run_pairs s ps2 acc' trace'
  | (Raise e, trace') => (Raise e, trace')
  end.
Proof.
  revert acc trace. induction ps1 as [|p ps1 IH]; intros acc trace; simpl.
  - reflexivity.
  - destruct (pair_outcome s (snd (fst p)) (snd (snd p))) as [l|e];
      [apply IH | reflexivity].
Qed.

(** The inner loop evaluates the later matches of the row, in order. *)
Lemma intersections_inner_loop (s : TopologyTest) (idx : nat) (row : Feature)
    (ms : list (nat * Feature)) (acc : list IntersectionIssue) (w : World) :
  for_each ms (intersections_inner s idx row) acc w =
  let rt := run_pairs s
              ((fun m : nat * Feature => ((idx, row), m)) <$>
               filter (fun m : nat * Feature => (idx < fst m)%nat) ms)
              acc (probes w) in
  (fst rt, mkWorld (self w) (stdout w) (snd rt)).
Proof.
  revert acc w. induction ms as [|[name mrow] ms IH]; intros acc w.
  - destruct w; reflexivity.
  - cbn [for_each]. unfold bind at 1.
    rewrite intersections_inner_step, filter_cons.
    destruct (Nat.leb_spec name idx) as [Hle|Hlt].
    + destruct (decide (idx < fst (name, mrow))%nat) as [Hd|Hd];
        [cbn in Hd; lia|].
      apply IH.
    + destruct (decide (idx < fst (name, mrow))%nat) as [Hd|Hd];
        [|cbn in Hd; lia].
      rewrite fmap_cons. cbn [run_pairs fst snd label].
      destruct (pair_outcome s row mrow) as [l|e]; [|reflexivity].
      rewrite IH. reflexivity.
Qed.

(** The outer loop evaluates the candidates of its rows, row after row. *)
Lemma intersections_outer_loop (s : TopologyTest) (gdf : list Feature)
    (rows : list (nat * Feature)) (acc : list IntersectionIssue) (w : World) :
  for_each rows (intersections_outer s gdf) acc w =
  let rt := run_pairs s
              (concat ((fun r : nat * Feature =>
                          (fun m : nat * Feature => (r, m)) <$>
                          filter (fun m : nat * Feature => (fst r < fst m)%nat)
                                 (matches_of gdf (snd r)))
                       <$> rows))
              acc (probes w) in
  (fst rt, mkWorld (self w) (stdout w) (snd rt)).
Proof.
  revert acc w. induction rows as [|[idx row] rows IH]; intros acc w.
  - destruct w; reflexivity.
  - cbn [for_each]. unfold bind at 1.
    unfold intersections_outer at 1.
    unfold bind at 1. unfold lift at 1.
    rewrite iloc_sindex_intersection, intersections_inner_loop.
    rewrite fmap_cons, concat_cons, run_pairs_app. cbn [fst snd].
    destruct (run_pairs s _ acc (probes w)) as [[acc'|e] trace'] eqn:E;
      cbn [fst snd]; [|reflexivity].
    rewrite IH. reflexivity.
Qed.

(** A first call: every candidate pair is evaluated in turn; the result is
    stored in the instance only if no pair raised. *)
Lemma check_intersections_uncached (w : World) :
  invalid_intersections (self w) = None ->
  check_intersections w =
  let rt := run_pairs (self w) (candidate_pairs (geometries (self w))) [] (probes w) in
  match fst rt with
  | Ok invalid =>
      (Ok invalid, mkWorld (with_cache (Some invalid) (self w)) (stdout w) (snd rt))
  | Raise e => (Raise e, mkWorld (self w) (stdout w) (snd rt))
  end.
Proof.
  intros Hc. unfold check_intersections.
  unfold bind at 1. unfold get_self. cbn beta iota. rewrite Hc.
  unfold bind at 1. rewrite intersections_outer_loop.
  fold (candidate_pairs (geometries (self w))). cbn zeta.
  destruct (run_pairs (self w) _ [] (probes w)) as [[invalid|e] trace];
    reflexivity.
Qed.

(** A later call returns the stored list and touches nothing. *)
Lemma check_intersections_from_cache (w : World) (cached : list IntersectionIssue) :
  invalid_intersections (self w) = Some cached ->
  check_intersections w = (Ok cached, w).
Proof.
  intros Hc. unfold check_intersections.
  unfold bind at 1. unfold get_self. cbn beta iota. rewrite Hc. reflexivity.
Qed.


(** *** The trace of evaluated pairs *)

Lemma elem_of_concat {A} (x : A) (ls : list (list A)) :
  x ∈ concat ls <-> exists l, x ∈ l /\ l ∈ ls.
Proof.
  induction ls as [|l ls IH]; simpl.
  - split; [intros H; inversion H | intros (l & _ & H); inversion H].
  - rewrite elem_of_app, IH. split.
    + intros [H | (l' & H1 & H2)].
      * exists l. split; [exact H | left].
      * exists l'. split; [exact H1 | by right].
    + intros (l' & H1 & H2). apply elem_of_cons in H2 as [-> | H2].
      * by left.
      * right. by exists l'.
Qed.

Lemma run_pairs_trace (s : TopologyTest) ps acc trace :
  exists done rest,
    ps = done ++ rest /\
    snd (run_pairs s ps acc trace) = trace ++ (label <$> done).
Proof.
  revert acc trace. induction ps as [|p ps IH]; intros acc trace; simpl.
  - exists [], []. split; [reflexivity|]. cbn. by rewrite app_nil_r.
  - destruct (pair_outcome s (snd (fst p)) (snd (snd p))) as [l|e].
    + destruct (IH (acc ++ l) (trace ++ [label p])) as (done & rest & -> & Ht).
      exists (p :: done), rest. split; [reflexivity|].
      rewrite Ht, fmap_cons, <- app_assoc. reflexivity.
    + exists [p], ps. split; reflexivity.
Qed.

Lemma NoDup_fst_filter {A B} (P : A * B -> Prop) `{!forall x, Decision (P x)}
    (l : list (A * B)) :
  NoDup l.*1 -> NoDup (filter P l).*1.
Proof.
  induction l as [|x l IH]; intros Hnd; [constructor|].
  rewrite fmap_cons in Hnd. apply NoDup_cons in Hnd as [Hx Hnd].
  rewrite filter_cons. destruct (decide (P x)); [|by apply IH].
  rewrite fmap_cons. apply NoDup_cons. split; [|by apply IH].
  intros Hin. apply Hx.
  apply list_elem_of_fmap in Hin as (y & -> & Hy).
  apply list_elem_of_filter in Hy as [_ Hy].
  by apply list_elem_of_fmap_2.
Qed.

(** Labels of the candidates of the rows [rows]. *)
Lemma candidate_labels_NoDup (gdf : list Feature) (rows : list (nat * Feature)) :
  NoDup rows.*1 ->
  NoDup (label <$>
         concat ((fun r : nat * Feature =>
                    (fun m : nat * Feature => (r, m)) <$>
                    filter (fun m : nat * Feature => (fst r < fst m)%nat)
                           (matches_of gdf (snd r)))
                 <$> rows)).
Proof.
  induction rows as [|r rows IH]; intros Hnd; [constructor|].
  rewrite fmap_cons in Hnd. apply NoDup_cons in Hnd as [Hr Hnd].
  rewrite fmap_cons, concat_cons, fmap_app.
  apply NoDup_app. split; [|split; [|by apply IH]].
  - rewrite <- list_fmap_compose.
    assert (NoDup (filter (fun m : nat * Feature => (fst r < fst m)%nat)
                          (matches_of gdf (snd r))).*1) as Hm.
    { apply NoDup_fst_filter. unfold matches_of. apply NoDup_fst_filter.
      rewrite iterrows_fst. apply NoDup_seq. }
    revert Hm. generalize (filter (fun m : nat * Feature => (fst r < fst m)%nat)
                                  (matches_of gdf (snd r))).
    intros ms Hm. induction ms as [|m ms IHm]; [constructor|].
    rewrite fmap_cons in Hm. apply NoDup_cons in Hm as [Hm1 Hm2].
    rewrite fmap_cons. apply NoDup_cons. split; [|by apply IHm].
    intros Hin. apply Hm1.
    apply list_elem_of_fmap in Hin as (m' & Heq & Hm').
    cbn in Heq. injection Heq as Heq. rewrite Heq.
    by apply list_elem_of_fmap_2.
  - intros p Hp Hp'. apply Hr.
    apply list_elem_of_fmap in Hp as (q & -> & Hq).
    apply list_elem_of_fmap in Hq as (m & -> & _).
    apply list_elem_of_fmap in Hp' as (q' & Heq & Hq').
    apply elem_of_concat in Hq' as (ps & Hq' & Hps).
    apply list_elem_of_fmap in Hps as (r' & -> & Hr').
    apply list_elem_of_fmap in Hq' as (m' & -> & _).
    cbn in Heq. injection Heq as Heq _. rewrite Heq.
    by apply list_elem_of_fmap_2.
Qed.

Lemma candidate_pairs_elem (gdf : list Feature) p :
  p ∈ candidate_pairs gdf <->
  fst p ∈ iterrows gdf /\ snd p ∈ iterrows gdf /\
  (fst (fst p) < fst (snd p))%nat /\
  bbox_intersects (bounds (fst (snd (fst p)))) (bounds (fst (snd (snd p)))) = true.
Proof.
  unfold candidate_pairs, matches_of. rewrite elem_of_concat. split.
  - intros (ps & Hp & Hps).
    apply list_elem_of_fmap in Hps as (r & -> & Hr).
    apply list_elem_of_fmap in Hp as (m & -> & Hm).
    apply list_elem_of_filter in Hm as [Hlt Hm].
    apply list_elem_of_filter in Hm as [Hb Hm].
    cbn. tauto.
  - destruct p as [r m]. cbn. intros (Hr & Hm & Hlt & Hb).
    eexists. split; [|apply list_elem_of_fmap_2; exact Hr].
    cbn. apply (list_elem_of_fmap_2 (fun m0 : nat * Feature => (r, m0))).
    apply list_elem_of_filter. split; [exact Hlt|].
    apply list_elem_of_filter. split; [exact Hb | exact Hm].
Qed.


Lemma probes_check_intersections (w : World) :
  exists done rest,
    candidate_pairs (geometries (self w)) = done ++ rest /\
    (probes (snd (check_intersections w)) = probes w \/
     probes (snd (check_intersections w)) = probes w ++ (label <$> done)).
Proof.
  destruct (invalid_intersections (self w)) as [cached|] eqn:Hc.
  - exists [], (candidate_pairs (geometries (self w))).
    split; [reflexivity|]. left.
    by rewrite (check_intersections_from_cache w cached Hc).
  - rewrite (check_intersections_uncached w Hc). cbn zeta.
    destruct (run_pairs_trace (self w) (candidate_pairs (geometries (self w)))
                [] (probes w)) as (done & rest & Hd & Ht).
    exists done, rest. split; [exact Hd|]. right.
    destruct (run_pairs (self w) _ [] (probes w)) as [[invalid|e] trace];
      cbn in *; exact Ht.
Qed.

(** C4. The intersection check evaluates every unordered pair of distinct
    features at most once: the pairs it hands to the geometric test are
    pairwise different, each has its first index below its second, so no
    pair is also evaluated in the other order and no feature is compared
    with itself. *)
Theorem check_intersections_each_pair_once (w : World) :
  probes w = [] ->
  let evaluated := probes (snd (check_intersections w)) in
  NoDup evaluated /\
  (forall i j, (i, j) ∈ evaluated -> (i < j)%nat) /\
  (forall i j, (i, j) ∈ evaluated -> (j, i) ∉ evaluated) /\
  (forall i, (i, i) ∉ evaluated).
Proof.
  intros Hp evaluated.
  assert (exists done rest,
             candidate_pairs (geometries (self w)) = done ++ rest /\
             evaluated = label <$> done) as (done & rest & Hd & He).
  { destruct (probes_check_intersections w) as (done & rest & Hd & [H|H]).
    - exists [], (candidate_pairs (geometries (self w))).
      split; [reflexivity|]. unfold evaluated. by rewrite H, Hp.
    - exists done, rest. split; [exact Hd|]. unfold evaluated. by rewrite H, Hp. }
  assert (NoDup evaluated) as Hnd.
  { pose proof (candidate_labels_NoDup (geometries (self w))
                  (iterrows (geometries (self w)))) as Hall.
    fold (candidate_pairs (geometries (self w))) in Hall.
    rewrite Hd, fmap_app in Hall. rewrite He.
    apply NoDup_app in Hall as [Hall _]; [exact Hall|].
    rewrite iterrows_fst. apply NoDup_seq. }
  assert (forall i j, (i, j) ∈ evaluated -> (i < j)%nat) as Hlt.
  { intros i j Hin. rewrite He in Hin.
    apply list_elem_of_fmap in Hin as (p & Heq & Hin).
    assert (p ∈ candidate_pairs (geometries (self w))) as Hc.
    { rewrite Hd. apply elem_of_app. by left. }
    apply candidate_pairs_elem in Hc as (_ & _ & Hc & _).
    unfold label in Heq. injection Heq as -> ->. exact Hc. }
  split; [exact Hnd|]. split; [exact Hlt|]. split.
  - intros i j Hij Hji. apply Hlt in Hij. apply Hlt in Hji. lia.
  - intros i Hii. apply Hlt in Hii. lia.
Qed.

(** C5. Once the intersection check has returned, calling it again returns
    the same sequence from the cache: the world is left as it is, so no
    pair is evaluated a second time. *)
Theorem check_intersections_cached (w w' : World) (r : list IntersectionIssue) :
  check_intersections w = (Ok r, w') ->
  check_intersections w' = (Ok r, w').
Proof.
  intros H.
  destruct (invalid_intersections (self w)) as [cached|] eqn:Hc.
  - rewrite (check_intersections_from_cache w cached Hc) in H.
    injection H as <- <-. by apply check_intersections_from_cache.
  - rewrite (check_intersections_uncached w Hc) in H. cbn zeta in H.
    destruct (run_pairs (self w) _ [] (probes w)) as [[invalid|e] trace];
      cbn in H; [|discriminate].
    injection H as <- <-. by apply check_intersections_from_cache.
Qed.



End Intersections.

(** ** The rule evaluator *)

Section RuleEvaluator.
Context {Geom : Type}.
Local Abbreviation TopologyTest := (@TopologyTest Geom).

Lemma py_in_null_attr_get (attr : gmap string Scalar) (a : option string)
    (vals : list Scalar) :
  py_in SNull vals = false ->
  py_in (attr_get attr a) vals = true ->
  exists k v, a = Some k /\ attr !! k = Some v /\ py_in v vals = true.
Proof.
  intros Hnull Hin. destruct a as [k|]; cbn in Hin; [|congruence].
  destruct (attr !! k) as [v|] eqn:E; cbn in Hin; [|congruence].
  by exists k, v.
Qed.

Lemma any_condition_met_present (conditions : list Condition)
    (attr1 attr2 : gmap string Scalar) :
  (forall c, c ∈ conditions -> py_in SNull (default [] (values c)) = false) ->
  any_condition_met conditions attr1 attr2 = true ->
  satisfied_by_present_value conditions attr1 attr2.
Proof.
  induction conditions as [|c cs IH]; intros Hnull H; cbn in H; [discriminate|].
  destruct (py_in (attr_get attr1 (attribute c)) (default [] (values c))) eqn:E1.
  { apply py_in_null_attr_get in E1 as (k & v & Hk & Hv & Hin);
      [|apply Hnull; left].
    exists c, k, v. repeat split; [left | exact Hk | by left | exact Hin]. }
  destruct (py_in (attr_get attr2 (attribute c)) (default [] (values c))) eqn:E2.
  { apply py_in_null_attr_get in E2 as (k & v & Hk & Hv & Hin);
      [|apply Hnull; left].
    exists c, k, v. repeat split; [left | exact Hk | by right | exact Hin]. }
  cbn in H. destruct IH as (c' & k & v & Hc & Hrest); [|exact H|].
  { intros c' Hc'. apply Hnull. by right. }
  exists c', k, v. split; [by right | exact Hrest].
Qed.

(** C7, as the code has it. A feature that lacks the condition's attribute is
    read as carrying the null value, never an error.  When no condition lists
    null among its allowed values, a condition can only be satisfied through
    an attribute value actually present in one of the two features. *)
Theorem missing_attribute_reads_as_null (s : TopologyTest)
    (attr1 attr2 : gmap string Scalar) :
  (forall c, c ∈ default [] (allow_intersection_if (rules s)) ->
             py_in SNull (default [] (values c)) = false) ->
  (forall (attr : gmap string Scalar) k,
      attr !! k = None -> attr_get attr (Some k) = SNull) /\
  (forall (attr : gmap string Scalar) c k,
      c ∈ default [] (allow_intersection_if (rules s)) ->
      attribute c = Some k -> attr !! k = None ->
      py_in (attr_get attr (attribute c)) (default [] (values c)) = false) /\
  (_is_valid_intersection s attr1 attr2 = true ->
   satisfied_by_present_value (default [] (allow_intersection_if (rules s)))
                              attr1 attr2).
Proof.
  intros Hnull. split; [|split].
  - intros attr k Hk. cbn. by rewrite Hk.
  - intros attr c k Hc Ha Hk. rewrite Ha. cbn. rewrite Hk. cbn. by apply Hnull.
  - unfold _is_valid_intersection.
    destruct (default [] (allow_intersection_if (rules s))) as [|c cs] eqn:E;
      [discriminate|].
    by apply any_condition_met_present.
Qed.

End RuleEvaluator.

(** ** Overlaps, containment and dangles *)

Section PairChecks.
Context {Geom : Type} `{K : GeometryKernel Geom}.
Local Abbreviation World := (@World Geom).
Local Abbreviation Feature := (@Feature Geom).

(** C6. The overlap check never consults [allow_overlap_if]: whatever the
    condition list is, in the rules and in the merged configuration, the
    check returns the same result over the same features. *)
Theorem check_overlaps_ignores_allow_overlap_if (tolerance : Q) (w : World)
    (c_rules c_config c_rules' c_config' : option (list Condition)) :
  fst (check_overlaps tolerance (set_allow_overlap_if c_rules c_config w)) =
  fst (check_overlaps tolerance (set_allow_overlap_if c_rules' c_config' w)).
Proof. apply check_overlaps_value. reflexivity. Qed.

(** The dangle loop stops at the first LineString: [Point] is not bound. *)
Lemma dangles_loop_raises (network : Geom) (gdf : list Feature)
    (dangles : list Feature) (w : World) :
  (exists f, f ∈ gdf /\ geom_type (fst f) = LineString) ->
  fst (for_each gdf
         (fun dangles f =>
            if GeomType_eqb (geom_type (fst f)) LineString then
              load_global "Point" ;;;
              start_point <- lift (coords_first (fst f)) ;;
              load_global "Point" ;;;
              end_point <- lift (coords_last (fst f)) ;;
              rest1 <- lift (difference network (fst f)) ;;
              t1 <- lift (intersects rest1 start_point) ;;
              if negb t1 then ret (dangles ++ [f])
              else
                rest2 <- lift (difference network (fst f)) ;;
                t2 <- lift (intersects rest2 end_point) ;;
                if negb t2 then ret (dangles ++ [f]) else ret dangles
            else ret dangles)
         dangles w) = Raise (NameError "Point").
Proof.
  intros (f & Hin & Hline).
  induction gdf as [|g gdf IH]; [inversion Hin|].
  cbn [for_each]. unfold bind at 1.
  destruct (GeomType_eqb (geom_type (fst g)) LineString) eqn:E.
  - reflexivity.
  - cbn. apply IH. apply elem_of_cons in Hin as [-> | Hin]; [|exact Hin].
    rewrite Hline in E. discriminate.
Qed.

(** C9, on the code: whenever the collection holds a LineString feature the
    dangle check raises instead of returning Issues; the exception is the
    unbound name [Point], unless the union of the network already failed. *)
Theorem check_dangles_raises_on_lines (w : World) :
  (exists f, f ∈ geometries (self w) /\ geom_type (fst f) = LineString) ->
  fst (check_dangles w) = Raise (NameError "Point") \/
  exists e, unary_union (geometries (self w)).*1 = Raise e /\
            fst (check_dangles w) = Raise e.
Proof.
  intros Hline.
  destruct (unary_union (geometries (self w)).*1) as [network|e] eqn:E;
    [left | right; exists e; split; [reflexivity|]];
    unfold check_dangles;
    unfold bind at 1; unfold get_self; cbn beta iota;
    unfold bind at 1; unfold lift at 1; rewrite E.
  - by apply dangles_loop_raises.
  - reflexivity.
Qed.


(** On two features the containment check asks one question only: whether
    the first contains the second. *)
Lemma check_containment_two (w : World) (f1 f2 : Feature) :
  geometries (self w) = [f1; f2] ->
  fst (check_containment w) =
  match contains (fst f1) (fst f2) with
  | Ok true => Ok [(fst f1, fst f2, snd f1, snd f2)]
  | Ok false => Ok []
  | Raise e => Raise e
  end.
Proof.
  intros Hg. unfold check_containment.
  unfold bind at 1. unfold get_self. cbn beta iota. rewrite Hg.
  cbn. unfold bind, lift, ret.
  destruct (contains (fst f1) (fst f2)) as [[|]|e]; reflexivity.
Qed.

End PairChecks.

(** ** The orchestrator *)

Section Orchestrator.
Context {Geom : Type} `{K : GeometryKernel Geom}.
Local Abbreviation World := (@World Geom).
Local Abbreviation M := (@M Geom).
Local Abbreviation CheckResult := (@CheckResult Geom).

Lemma same_inputs_refl (w : World) : same_inputs w w.
Proof. split; reflexivity. Qed.

Lemma same_inputs_enabled (w0 w : World) (name : string) :
  same_inputs w0 w -> enabled (self w) name = enabled (self w0) name.
Proof. intros [_ Hc]. unfold enabled. by rewrite Hc. Qed.

Lemma check_intersections_inputs (w : World) :
  same_inputs w (snd (check_intersections w)).
Proof.
  destruct (invalid_intersections (self w)) as [cached|] eqn:Hc.
  - rewrite (check_intersections_from_cache w cached Hc). apply same_inputs_refl.
  - rewrite (check_intersections_uncached w Hc). cbn zeta.
    destruct (run_pairs (self w) _ [] (probes w)) as [[invalid|e] trace];
      split; reflexivity.
Qed.

(** One block of [validate_topology] followed by the rest of the method. *)
Lemma bind_stage {A} (w0 w : World) (name : string) (chk : M A)
    (wrap : A -> option CheckResult)
    (body : A -> M (gmap string CheckResult))
    (results : gmap string CheckResult)
    (k : gmap string CheckResult -> M (gmap string CheckResult))
    (rest : list Stage) :
  same_inputs w0 w ->
  fst (chk w) = fst (chk w0) ->
  same_inputs w0 (snd (chk w)) ->
  (forall a w', body a w' = (Ok (insert_opt name (wrap a) results), w')) ->
  (forall results' w', same_inputs w0 w' ->
                       fst (k results' w') = run_stages rest results') ->
  fst (bind (bind (enabled_check name)
                  (fun e => if e then bind chk body else ret results))
            k w) =
  run_stages (mkStage name (enabled (self w0) name) (res_map wrap (fst (chk w0))) :: rest)
             results.
Proof.
  intros Hs Hv Hw Hbody Hk.
  cbn [run_stages stage_on stage_outcome stage_name].
  unfold bind at 1. unfold bind at 1. unfold enabled_check.
  unfold bind at 1. unfold get_self, ret at 1. cbn beta iota.
  rewrite (same_inputs_enabled w0 w name Hs).
  destruct (enabled (self w0) name).
  - unfold bind at 1. rewrite <- Hv.
    destruct (chk w) as [[a|e] w1]; cbn in *.
    + rewrite Hbody. by apply Hk.
    + reflexivity.
  - unfold ret. by apply Hk.
Qed.

(** The value of [validate_topology] is that of its six stages, each check
    taken on the world the method was called in. *)
Lemma validate_topology_value (w : World) :
  fst (validate_topology w) = run_stages (stages w) ∅.
Proof.
  unfold validate_topology, stages. cbn zeta.
  apply (bind_stage w w); [apply same_inputs_refl | reflexivity
    | apply check_intersections_inputs | reflexivity |].
  intros r1 w1 H1.
  apply (bind_stage w w1); [exact H1
    | apply check_self_intersections_value, H1
    | by rewrite check_self_intersections_world | reflexivity |].
  intros r2 w2 H2.
  apply (bind_stage w w2 "gaps" (check_gaps 0%Q) (fun g => RGaps <$> g));
    [exact H2 | apply check_gaps_value, H2 | | intros [g|] w'; reflexivity |].
  { destruct (check_gaps_world 0%Q w2) as [Hself _]. destruct H2 as [Hg Hc].
    split; by rewrite Hself. }
  intros r3 w3 H3.
  apply (bind_stage w w3); [exact H3
    | apply check_dangles_value, H3
    | by rewrite check_dangles_world | reflexivity |].
  intros r4 w4 H4.
  apply (bind_stage w w4); [exact H4
    | apply check_overlaps_value, H4
    | by rewrite check_overlaps_world | reflexivity |].
  intros r5 w5 H5.
  apply (bind_stage w w5); [exact H5
    | apply check_containment_value, H5
    | by rewrite check_containment_world | reflexivity |].
  intros r6 w6 H6. reflexivity.
Qed.


(** *** Facts about a run of stages *)

Lemma run_stages_raise (l : list Stage) (results : gmap string CheckResult) e :
  run_stages l results = Raise e ->
  exists st, st ∈ l /\ stage_on st = true /\ stage_outcome st = Raise e.
Proof.
  revert results. induction l as [|st l IH]; intros results H; cbn in H;
    [discriminate|].
  destruct (stage_on st) eqn:Hon.
  - destruct (stage_outcome st) as [o|e'] eqn:Ho.
    + destruct (IH _ H) as (st' & Hin & Hst'). exists st'. split; [by right | exact Hst'].
    + injection H as ->. exists st. split; [left | by split].
  - destruct (IH _ H) as (st' & Hin & Hst'). exists st'. split; [by right | exact Hst'].
Qed.

Lemma run_stages_ok (l : list Stage) (results : gmap string CheckResult) :
  (exists m, run_stages l results = Ok m) <->
  (forall st, st ∈ l -> stage_on st = true -> is_ok (stage_outcome st) = true).
Proof.
  split.
  - intros [m Hm] st Hin Hon.
    destruct (stage_outcome st) as [o|e] eqn:Ho; [reflexivity|]. exfalso.
    revert results Hm. induction l as [|st' l IH]; intros results Hm;
      [inversion Hin|].
    cbn in Hm. apply elem_of_cons in Hin as [<- | Hin].
    + rewrite Hon, Ho in Hm. discriminate.
    + destruct (stage_on st'); [destruct (stage_outcome st')|];
        try discriminate; by eapply IH.
  - revert results. induction l as [|st l IH]; intros results Hall; cbn.
    + eauto.
    + destruct (stage_on st) eqn:Hon.
      * pose proof (Hall st (list_elem_of_here _ _) Hon) as Hok.
        destruct (stage_outcome st) as [o|e]; [|discriminate].
        apply IH. intros st' Hin. apply Hall. by right.
      * apply IH. intros st' Hin. apply Hall. by right.
Qed.

Lemma run_stages_keeps (l : list Stage) (results m : gmap string CheckResult)
    (name : string) (v : CheckResult) :
  run_stages l results = Ok m ->
  name ∉ stage_name <$> l ->
  results !! name = Some v -> keep_result v = true ->
  m !! name = Some v.
Proof.
  revert results. induction l as [|st l IH]; intros results Hm Hnot Hl Hk;
    cbn in Hm.
  - injection Hm as <-. apply map_lookup_filter_Some. by split.
  - rewrite fmap_cons, not_elem_of_cons in Hnot. destruct Hnot as [Hne Hnot].
    destruct (stage_on st); [destruct (stage_outcome st) as [[v'|]|e]|];
      try discriminate; cbn in Hm; try (by eapply IH).
    eapply IH; [exact Hm | exact Hnot | | exact Hk].
    by rewrite lookup_insert_ne.
Qed.

Lemma run_stages_lookup (l : list Stage) (results m : gmap string CheckResult)
    (st : Stage) (v : CheckResult) :
  run_stages l results = Ok m ->
  NoDup (stage_name <$> l) ->
  st ∈ l -> stage_on st = true -> stage_outcome st = Ok (Some v) ->
  keep_result v = true ->
  m !! stage_name st = Some v.
Proof.
  revert results. induction l as [|st' l IH]; intros results Hm Hnd Hin Hon Ho Hk;
    [inversion Hin|].
  rewrite fmap_cons in Hnd. apply NoDup_cons in Hnd as [Hfresh Hnd].
  cbn in Hm. apply elem_of_cons in Hin as [<- | Hin].
  - rewrite Hon, Ho in Hm. cbn in Hm.
    eapply run_stages_keeps; [exact Hm | exact Hfresh | | exact Hk].
    by rewrite lookup_insert_eq.
  - destruct (stage_on st'); [destruct (stage_outcome st') as [o|e]|];
      try discriminate; by eapply IH.
Qed.

(** In the intersection check only the [intersects] test can fail a pair:
    what the [try] block raises is swallowed with the pair. *)
Lemma pair_outcome_raise (s : @TopologyTest Geom) (row mrow : @Feature Geom) e :
  pair_outcome s row mrow = Raise e -> intersects (fst row) (fst mrow) = Raise e.
Proof.
  unfold pair_outcome.
  destruct (intersects (fst row) (fst mrow)) as [[|]|e']; try discriminate.
  - destruct (_is_valid_intersection s (snd row) (snd mrow)); discriminate.
  - by intros [= ->].
Qed.

(** X26. [validate_topology] has no handler of its own: it returns a
    result mapping exactly when no enabled check raises, and an exception
    that leaves an enabled check leaves [validate_topology] too.  The gap
    check never raises; and whenever a mapping is returned, every enabled
    check with a non-empty result has its entry in it. *)
Theorem validate_topology_failure_scope (w : World) :
  (forall tolerance, is_ok (fst (check_gaps tolerance w)) = true) /\
  ((exists m, fst (validate_topology w) = Ok m) <->
   (forall st, st ∈ stages w -> stage_on st = true ->
               is_ok (stage_outcome st) = true)) /\
  (forall e, fst (validate_topology w) = Raise e ->
             exists st, st ∈ stages w /\ stage_on st = true /\
                        stage_outcome st = Raise e) /\
  (forall m, fst (validate_topology w) = Ok m ->
     forall st v, st ∈ stages w -> stage_on st = true ->
                  stage_outcome st = Ok (Some v) -> keep_result v = true ->
                  m !! stage_name st = Some v).
Proof.
  rewrite validate_topology_value. split; [|split; [|split]].
  - intros tolerance. apply check_gaps_is_ok.
  - apply run_stages_ok.
  - apply run_stages_raise.
  - intros m Hm st v Hin Hon Ho Hk.
    eapply run_stages_lookup; [exact Hm | | exact Hin | exact Hon | exact Ho | exact Hk].
    unfold stages. cbn. apply (bool_decide_unpack _). by vm_compute.
Qed.

End Orchestrator.

(** ** Concrete runs *)

Section Concrete.
Import Raster Scenarios.

(** The evaluator on the bridge rule of the specification's scenario. *)
Example bridge_exempts :
  _is_valid_intersection (with_conditions [bridge_condition]) bridge_attrs road_attrs = true /\
  _is_valid_intersection (with_conditions [bridge_condition]) road_attrs road_attrs = false.
Proof. split; reflexivity. Qed.

(** Python equality on scalars: [True == 1], [1.0 == 1], [None != 0]. *)
Example py_eq_samples :
  py_eq (SBool true) (SNum 1) = true /\
  py_eq (SNum (2 # 2)) (SNum 1) = true /\
  py_eq SNull (SNum 0) = false /\
  py_eq (SStr "1") (SNum 1) = false.
Proof. repeat split; reflexivity. Qed.

(** C1, on the code. The outer square contains the inner one, yet with the
    inner square listed first the containment check reports nothing: only
    [geometry i contains geometry j] with i < j is ever tested.  Listed the
    other way round, the same two features give one Issue. *)
Theorem check_containment_misses_later_container :
  contains outer_square inner_square = Ok true /\
  fst (check_containment inner_then_outer) = Ok [] /\
  fst (check_containment outer_then_inner) =
    Ok [(outer_square, inner_square, ∅, ∅)].
Proof. repeat split; vm_compute; reflexivity. Qed.

(** C2, on the code. The union of the network raises in the dangle check,
    and with it the whole of [validate_topology]: no result mapping is
    returned, although the intersection check and the gap check of the same
    run caught the same kernel failure and went on. *)
Lemma dangle_failure_aborts_validate_topology :
  fst (check_intersections corrupt_pair) = Ok [] /\
  fst (check_gaps 0 corrupt_pair) = Ok None /\
  (exists e, fst (check_dangles corrupt_pair) = Raise e) /\
  ~ (exists m, fst (validate_topology corrupt_pair) = Ok m).
Proof.
  split; [vm_compute; reflexivity|].
  split; [vm_compute; reflexivity|].
  split; [eexists; vm_compute; reflexivity|].
  intros [m Hm].
  assert (fst (validate_topology corrupt_pair) = Raise topology_exception) as H
    by (vm_compute; reflexivity).
  rewrite H in Hm. discriminate.
Qed.

(** A kernel failure inside the gap check costs the "gaps" entry only. *)
Example gap_failure_is_confined :
  unary_union (polygons_of (geometries (self nested_beside_corrupt)))
    = Raise topology_exception /\
  exists m, fst (validate_topology nested_beside_corrupt) = Ok m /\
            m !! "gaps" = None /\
            m !! "containment" = Some (RPairs [(outer_square, inner_square, ∅, ∅)]) /\
            is_Some (m !! "intersections").
Proof.
  split; [vm_compute; reflexivity|].
  eexists. split; [vm_compute; reflexivity|].
  split; [vm_compute; reflexivity|].
  split; [vm_compute; reflexivity|].
  eexists. vm_compute. reflexivity.
Qed.

(** The unbound name reaches the caller of [validate_topology]. *)
Example isolated_line_raises :
  fst (check_dangles isolated_line) = Raise (NameError "Point") /\
  fst (validate_topology isolated_line) = Raise (NameError "Point").
Proof. split; vm_compute; reflexivity. Qed.

(** C7 fails where the allowed values hold null: two features without any
    attribute satisfy the condition. *)
Lemma null_value_matches_missing_attribute :
  _is_valid_intersection (with_conditions [null_condition]) ∅ ∅ = true /\
  ~ satisfied_by_present_value [null_condition] ∅ ∅.
Proof.
  split; [reflexivity|].
  intros (c & k & v & _ & _ & [H | H] & _); rewrite lookup_empty in H;
    discriminate.
Qed.

Lemma missing_attribute_reads_as_null_witness :
  (forall c, c ∈ default [] (allow_intersection_if
                               (rules (with_conditions [bridge_condition]))) ->
             py_in SNull (default [] (values c)) = false) /\
  attr_get (∅ : gmap string Scalar) (Some "type") = SNull /\
  py_in (attr_get (∅ : gmap string Scalar) (attribute bridge_condition))
        (default [] (values bridge_condition)) = false /\
  satisfied_by_present_value [bridge_condition] bridge_attrs ∅.
Proof.
  assert (forall c, c ∈ default [] (allow_intersection_if
                                      (rules (with_conditions [bridge_condition]))) ->
                    py_in SNull (default [] (values c)) = false) as Hnull.
  { intros c Hc. cbn in Hc. apply list_elem_of_singleton in Hc. subst c.
    reflexivity. }
  destruct (missing_attribute_reads_as_null
              (with_conditions [bridge_condition]) bridge_attrs ∅ Hnull)
    as (H1 & H2 & H3).
  split; [exact Hnull|].
  split; [apply H1; reflexivity|].
  split; [apply (H2 ∅ bridge_condition "type"); [left | reflexivity | reflexivity]|].
  apply H3. reflexivity.
Defined.


Lemma check_intersections_each_pair_once_witness :
  probes nested_beside_corrupt = [] /\
  probes (snd (check_intersections nested_beside_corrupt)) = [(0, 1)]%nat /\
  (let evaluated := probes (snd (check_intersections nested_beside_corrupt)) in
   NoDup evaluated /\
   (forall i j, (i, j) ∈ evaluated -> (i < j)%nat) /\
   (forall i j, (i, j) ∈ evaluated -> (j, i) ∉ evaluated) /\
   (forall i, (i, i) ∉ evaluated)).
Proof.
  split; [reflexivity|]. split; [vm_compute; reflexivity|].
  apply check_intersections_each_pair_once. reflexivity.
Defined.

Lemma check_intersections_cached_witness :
  let first := check_intersections outer_then_inner in
  first = (Ok [(outer_square, inner_square, inner_square, ∅, ∅)], snd first) /\
  check_intersections (snd first) = first.
Proof.
  cbv zeta.
  assert (check_intersections outer_then_inner =
          (Ok [(outer_square, inner_square, inner_square, ∅, ∅)],
           snd (check_intersections outer_then_inner))) as H
    by (vm_compute; reflexivity).
  split; [exact H|].
  rewrite H at 2. apply (check_intersections_cached outer_then_inner). exact H.
Defined.

Lemma check_gaps_no_gaps_witness :
  (polygons_of (geometries (self scattered_multipolygons)) = [] /\
   fst (check_gaps 1 scattered_multipolygons) = Ok None) /\
  (gap_region (polygons_of (geometries (self corrupt_alone))) 1
     = Raise topology_exception /\
   fst (check_gaps 1 corrupt_alone) = Ok None) /\
  (gap_region (polygons_of (geometries (self scattered_polygons))) 0
     = Ok (mkGeom GeometryCollection [] false) /\
   is_empty (mkGeom GeometryCollection [] false) = Ok true /\
   fst (check_gaps 0 scattered_polygons) = Ok None).
Proof.
  split; [|split].
  - split; [reflexivity|].
    apply (check_gaps_no_gaps 1 scattered_multipolygons). reflexivity.
  - split; [vm_compute; reflexivity|].
    apply (check_gaps_no_gaps 1 corrupt_alone) with (e := topology_exception).
    vm_compute; reflexivity.
  - split; [vm_compute; reflexivity|]. split; [reflexivity|].
    apply (check_gaps_no_gaps 0 scattered_polygons)
      with (gaps := mkGeom GeometryCollection [] false);
      vm_compute; reflexivity.
Defined.

(** The free cell between the two features is a gap for Polygon features
    and goes unseen for MultiPolygon features. *)
Example multipolygon_gap_unseen :
  fst (check_gaps 1 scattered_multipolygons) = Ok None /\
  exists gaps, fst (check_gaps 1 scattered_polygons) = Ok (Some gaps) /\
               Raster.mem (1, 0)%Z (cells gaps) = true.
Proof.
  split; [vm_compute; reflexivity|].
  eexists. split; vm_compute; reflexivity.
Qed.

Lemma check_gaps_polygon_instances_only_witness :
  (forall f : Geom * gmap string Scalar,
      f ∈ geometries (self scattered_multipolygons) ->
      geom_type (fst f) = MultiPolygon) /\
  fst (check_gaps 1 scattered_multipolygons) = fst (check_gaps 1 (fresh [])) /\
  fst (check_gaps 1 scattered_multipolygons) = Ok None.
Proof.
  assert (forall f : Geom * gmap string Scalar,
             f ∈ geometries (self scattered_multipolygons) ->
             geom_type (fst f) = MultiPolygon) as Hall.
  { intros f Hf. cbn in Hf.
    apply elem_of_cons in Hf as [-> | Hf]; [reflexivity|].
    apply list_elem_of_singleton in Hf. subst f. reflexivity. }
  destruct (check_gaps_polygon_instances_only 1 scattered_multipolygons)
    as [H1 H2].
  split; [exact Hall|]. split; [apply H1; reflexivity | apply H2, Hall].
Defined.

Lemma check_dangles_raises_on_lines_witness :
  (exists f, f ∈ geometries (self isolated_line) /\ geom_type (fst f) = LineString) /\
  (fst (check_dangles isolated_line) = Raise (NameError "Point") \/
   exists e, unary_union (geometries (self isolated_line)).*1 = Raise e /\
             fst (check_dangles isolated_line) = Raise e).
Proof.
  assert (exists f, f ∈ geometries (self isolated_line) /\
                    geom_type (fst f) = LineString) as Hline.
  { eexists. split; [left | reflexivity]. }
  split; [exact Hline|].
  apply check_dangles_raises_on_lines. exact Hline.
Defined.

End Concrete.

(** * Further properties of the checks *)

(** ** Self-intersections, overlaps and containment *)

Section SimpleChecks.
Context {Geom : Type} `{K : GeometryKernel Geom}.
Local Abbreviation World := (@World Geom).
Local Abbreviation M := (@M Geom).
Local Abbreviation Feature := (@Feature Geom).
Local Abbreviation PairIssue := (@PairIssue Geom).

Lemma self_intersections_loop (gdf acc : list Feature) (w : World) :
  match fst (for_each gdf
               (fun acc f =>
                  s <- lift (is_simple (fst f)) ;;
                  if negb s then ret (acc ++ [f]) else ret acc)
               acc w) with
  | Ok r =>
      r = acc ++ List.filter non_simple gdf /\
      forall f, f ∈ gdf -> is_ok (is_simple (fst f)) = true
  | Raise e => exists f, f ∈ gdf /\ is_simple (fst f) = Raise e
  end.
Proof.
  revert acc w. induction gdf as [|g gdf IH]; intros acc w.
  - cbn. split; [by rewrite app_nil_r | intros f Hf; inversion Hf].
  - cbn [for_each]. unfold bind at 1. unfold bind at 1. unfold lift at 1.
    cbn [List.filter]. unfold non_simple at 1.
    destruct (is_simple (fst g)) as [[|]|e] eqn:E; cbn [negb].
    + unfold ret at 1. specialize (IH acc w).
      destruct (fst (for_each gdf _ acc w)) as [r|e'].
      * destruct IH as [-> Hall]. split; [reflexivity|].
        intros f Hf. apply elem_of_cons in Hf as [-> | Hf]; [by rewrite E | by apply Hall].
      * destruct IH as (f & Hf & He). exists f. split; [by right | exact He].
    + unfold ret at 1. specialize (IH (acc ++ [g]) w).
      destruct (fst (for_each gdf _ (acc ++ [g]) w)) as [r|e'].
      * destruct IH as [-> Hall]. split; [by rewrite <- app_assoc|].
        intros f Hf. apply elem_of_cons in Hf as [-> | Hf]; [by rewrite E | by apply Hall].
      * destruct IH as (f & Hf & He). exists f. split; [by right | exact He].
    + cbn. exists g. split; [left | exact E].
Qed.

(** X1. When the self-intersection check returns, its result is exactly the
    features whose geometry the kernel finds not simple, in input order, and
    every simplicity test returned; when it raises, the exception is the one
    of a simplicity test on some feature. *)
Theorem check_self_intersections_exact (w : World) :
  match fst (check_self_intersections w) with
  | Ok r =>
      r = List.filter non_simple (geometries (self w)) /\
      forall f, f ∈ geometries (self w) -> is_ok (is_simple (fst f)) = true
  | Raise e => exists f, f ∈ geometries (self w) /\ is_simple (fst f) = Raise e
  end.
Proof.
  unfold check_self_intersections.
  unfold bind at 1. unfold get_self. cbn beta iota.
  apply (self_intersections_loop (geometries (self w)) [] w).
Qed.

(** *** The pairs of the two quadratic loops *)

Lemma lookup_zip_seq (gdf : list Feature) (k n : nat) :
  zip (seq k (length gdf)) gdf !! n = (fun f => ((k + n)%nat, f)) <$> gdf !! n.
Proof.
  revert k n. induction gdf as [|g gdf IH]; intros k n; [by destruct n|].
  destruct n as [|n]; cbn.
  - by rewrite Nat.add_0_r.
  - rewrite IH. by replace (S k + n)%nat with (k + S n)%nat by lia.
Qed.

Lemma elem_of_iloc_from (gdf : list Feature) (k j : nat) (f : Feature) :
  (j, f) ∈ iloc_from gdf k <-> (k <= j)%nat /\ gdf !! j = Some f.
Proof.
  unfold iloc_from, iterrows. rewrite list_elem_of_lookup. split.
  - intros [n Hn]. rewrite lookup_drop, lookup_zip_seq in Hn. cbn in Hn.
    destruct (gdf !! (k + n)%nat) as [g|] eqn:E; [|discriminate].
    cbn in Hn. injection Hn as <- <-. split; [lia | exact E].
  - intros [Hle Hj]. exists (j - k)%nat.
    rewrite lookup_drop, lookup_zip_seq. cbn.
    replace (k + (j - k))%nat with j by lia. by rewrite Hj.
Qed.

Lemma later_pairs_elem (gdf : list Feature) (p : (nat * Feature) * (nat * Feature)) :
  p ∈ later_pairs gdf <->
  gdf !! fst (fst p) = Some (snd (fst p)) /\
  gdf !! fst (snd p) = Some (snd (snd p)) /\
  (fst (fst p) < fst (snd p))%nat.
Proof.
  unfold later_pairs. rewrite elem_of_concat. split.
  - intros (ps & Hp & Hps).
    apply list_elem_of_fmap in Hps as ([i f1] & -> & Hr).
    apply list_elem_of_fmap in Hp as ([j f2] & -> & Hm).
    apply elem_of_iterrows in Hr. apply elem_of_iloc_from in Hm as [Hle Hj].
    cbn in *. split; [exact Hr|]. split; [exact Hj | lia].
  - destruct p as [[i f1] [j f2]]. cbn. intros (Hi & Hj & Hlt).
    eexists. split; [|apply list_elem_of_fmap_2, elem_of_iterrows; exact Hi].
    cbn. apply (list_elem_of_fmap_2 (fun r2 : nat * Feature => ((i, f1), r2))).
    apply elem_of_iloc_from. split; [lia | exact Hj].
Qed.

Lemma collect_app (test : Feature -> Feature -> res (option PairIssue))
    ps1 ps2 acc :
  collect test (ps1 ++ ps2) acc =
  match collect test ps1 acc with
  | Ok acc' => collect test ps2 acc'
  | Raise e => Raise e
  end.
Proof.
  revert acc. induction ps1 as [|p ps1 IH]; intros acc; cbn; [reflexivity|].
  destruct (test (snd (fst p)) (snd (snd p))) as [[x|]|e]; [apply IH | apply IH | reflexivity].
Qed.

Lemma collect_elem (test : Feature -> Feature -> res (option PairIssue))
    ps acc r :
  collect test ps acc = Ok r ->
  forall x, x ∈ r <->
            x ∈ acc \/ exists p, p ∈ ps /\ test (snd (fst p)) (snd (snd p)) = Ok (Some x).
Proof.
  revert acc. induction ps as [|p ps IH]; intros acc H x; cbn in H.
  - injection H as <-. split; [by left|].
    intros [Hx | (p & Hp & _)]; [exact Hx | inversion Hp].
  - destruct (test (snd (fst p)) (snd (snd p))) as [[y|]|e] eqn:E; [| |discriminate];
      rewrite (IH _ H x).
    + rewrite elem_of_app, list_elem_of_singleton. split.
      * intros [[Hx | ->] | (q & Hq & Ht)].
        -- by left.
        -- right. exists p. split; [left | exact E].
        -- right. exists q. split; [by right | exact Ht].
      * intros [Hx | (q & Hq & Ht)]; [by left; left|].
        apply elem_of_cons in Hq as [-> | Hq].
        -- rewrite E in Ht. injection Ht as ->. left. by right.
        -- right. by exists q.
    + split.
      * intros [Hx | (q & Hq & Ht)]; [by left|].
        right. exists q. split; [by right | exact Ht].
      * intros [Hx | (q & Hq & Ht)]; [by left|].
        apply elem_of_cons in Hq as [-> | Hq]; [rewrite E in Ht; discriminate|].
        right. by exists q.
Qed.

Lemma collect_raise (test : Feature -> Feature -> res (option PairIssue))
    ps acc e :
  collect test ps acc = Raise e ->
  exists p, p ∈ ps /\ test (snd (fst p)) (snd (snd p)) = Raise e.
Proof.
  revert acc. induction ps as [|p ps IH]; intros acc H; cbn in H; [discriminate|].
  destruct (test (snd (fst p)) (snd (snd p))) as [[y|]|e'] eqn:E.
  - destruct (IH _ H) as (q & Hq & Ht). exists q. split; [by right | exact Ht].
  - destruct (IH _ H) as (q & Hq & Ht). exists q. split; [by right | exact Ht].
  - injection H as ->. exists p. split; [left | exact E].
Qed.

(** Two nested loops over the frame whose body tests one pair. *)
Lemma nested_loops_collect (test : Feature -> Feature -> res (option PairIssue))
    (body : list PairIssue -> nat * Feature -> nat * Feature -> M (list PairIssue))
    (gdf : list Feature) :
  (forall acc r1 r2 w,
      body acc r1 r2 w =
      (match test (snd r1) (snd r2) with
       | Ok (Some x) => Ok (acc ++ [x])
       | Ok None => Ok acc
       | Raise e => Raise e
       end, w)) ->
  forall rows acc w,
    for_each rows
      (fun acc1 r1 => for_each (iloc_from gdf (fst r1 + 1))
                               (fun acc2 r2 => body acc2 r1 r2) acc1)
      acc w =
    (collect test
       (concat ((fun r1 : nat * Feature =>
                   (fun r2 : nat * Feature => (r1, r2)) <$> iloc_from gdf (fst r1 + 1))
                <$> rows))
       acc, w).
Proof.
  intros Hbody.
  assert (forall r1 rows2 acc w,
             for_each rows2 (fun acc2 r2 => body acc2 r1 r2) acc w =
             (collect test ((fun r2 : nat * Feature => (r1, r2)) <$> rows2) acc, w))
    as Hinner.
  { intros r1 rows2. induction rows2 as [|r2 rows2 IH]; intros acc w; [reflexivity|].
    cbn [for_each]. unfold bind at 1. rewrite Hbody. rewrite fmap_cons.
    cbn [collect fst snd].
    destruct (test (snd r1) (snd r2)) as [[x|]|e]; [apply IH | apply IH | reflexivity]. }
  induction rows as [|r1 rows IH]; intros acc w; [reflexivity|].
  cbn [for_each]. unfold bind at 1. rewrite Hinner.
  rewrite fmap_cons, concat_cons, collect_app.
  destruct (collect test _ acc) as [acc'|e]; [apply IH | reflexivity].
Qed.

Lemma check_overlaps_collect (tolerance : Q) (w : World) :
  fst (check_overlaps tolerance w) =
  collect (overlap_test tolerance) (later_pairs (geometries (self w))) [].
Proof.
  unfold check_overlaps. unfold bind at 1. unfold get_self. cbn beta iota zeta.
  rewrite (nested_loops_collect (overlap_test tolerance)); [reflexivity|].
  intros acc r1 r2 w'. unfold overlap_test, bind, lift, ret.
  destruct (overlaps (fst (snd r1)) (fst (snd r2))) as [[|]|e]; try reflexivity.
  destruct (intersection (fst (snd r1)) (fst (snd r2))) as [g|e]; try reflexivity.
  destruct (area g) as [a|e]; try reflexivity.
  destruct (negb (Qle_bool a tolerance)); reflexivity.
Qed.

Lemma check_containment_collect (w : World) :
  fst (check_containment w) =
  collect containment_test (later_pairs (geometries (self w))) [].
Proof.
  unfold check_containment. unfold bind at 1. unfold get_self. cbn beta iota zeta.
  rewrite (nested_loops_collect containment_test); [reflexivity|].
  intros acc r1 r2 w'. unfold containment_test, bind, lift, ret.
  destruct (contains (fst (snd r1)) (fst (snd r2))) as [[|]|e]; reflexivity.
Qed.

End SimpleChecks.

Section PairCheckResults.
Context {Geom : Type} `{K : GeometryKernel Geom}.
Local Abbreviation World := (@World Geom).
Local Abbreviation Feature := (@Feature Geom).
Local Abbreviation PairIssue := (@PairIssue Geom).
Local Abbreviation IntersectionIssue := (@IntersectionIssue Geom).
Local Abbreviation TopologyTest := (@TopologyTest Geom).

(** X2. When the overlap check returns, it lists exactly the pairs of
    positions i < j whose geometries overlap with an intersection area
    strictly above the tolerance (an area equal to the tolerance is not
    reported).  When it raises, the exception comes from the overlap test of
    such a pair or, the overlap test passed, from computing the intersection
    or its area: nothing is caught here. *)
Theorem check_overlaps_exact (tolerance : Q) (w : World) :
  let gdf := geometries (self w) in
  match fst (check_overlaps tolerance w) with
  | Ok r =>
      forall x, x ∈ r <->
        exists i j (f1 f2 : Feature) g a,
          (i < j)%nat /\ gdf !! i = Some f1 /\ gdf !! j = Some f2 /\
          overlaps (fst f1) (fst f2) = Ok true /\
          intersection (fst f1) (fst f2) = Ok g /\
          area g = Ok a /\ Qle_bool a tolerance = false /\
          x = (fst f1, fst f2, snd f1, snd f2)
  | Raise e =>
      exists i j (f1 f2 : Feature),
        (i < j)%nat /\ gdf !! i = Some f1 /\ gdf !! j = Some f2 /\
        (overlaps (fst f1) (fst f2) = Raise e \/
         overlaps (fst f1) (fst f2) = Ok true /\
         (intersection (fst f1) (fst f2) = Raise e \/
          exists g, intersection (fst f1) (fst f2) = Ok g /\ area g = Raise e))
  end.
Proof.
  cbv zeta. rewrite check_overlaps_collect.
  destruct (collect (overlap_test tolerance) _ []) as [r|e] eqn:E.
  - intros x. rewrite (collect_elem _ _ _ _ E x). split.
    + intros [Hx | ([[i f1] [j f2]] & Hp & Ht)]; [inversion Hx|].
      apply later_pairs_elem in Hp as (Hi & Hj & Hlt). cbn in *.
      unfold overlap_test in Ht.
      destruct (overlaps (fst f1) (fst f2)) as [[|]|e] eqn:Eo; try discriminate.
      destruct (intersection (fst f1) (fst f2)) as [g|e] eqn:Eg; try discriminate.
      destruct (area g) as [a|e] eqn:Ea; try discriminate.
      destruct (Qle_bool a tolerance) eqn:Eq; cbn in Ht; try discriminate.
      injection Ht as <-. exists i, j, f1, f2, g, a. by repeat split.
    + intros (i & j & f1 & f2 & g & a & Hlt & Hi & Hj & Ho & Hg & Ha & Hq & ->).
      right. exists ((i, f1), (j, f2)). split.
      * apply later_pairs_elem. by cbn.
      * cbn. unfold overlap_test. by rewrite Ho, Hg, Ha, Hq.
  - apply collect_raise in E as ([[i f1] [j f2]] & Hp & Ht).
    apply later_pairs_elem in Hp as (Hi & Hj & Hlt). cbn in *.
    exists i, j, f1, f2. split; [exact Hlt|]. split; [exact Hi|]. split; [exact Hj|].
    unfold overlap_test in Ht.
    destruct (overlaps (fst f1) (fst f2)) as [[|]|e']; try discriminate.
    + right. split; [reflexivity|].
      destruct (intersection (fst f1) (fst f2)) as [g|e'] eqn:Eg.
      * right. exists g. split; [reflexivity|].
        destruct (area g) as [a|e'']; [|by injection Ht as ->].
        destruct (negb (Qle_bool a tolerance)); discriminate.
      * left. by injection Ht as ->.
    + left. by injection Ht as ->.
Qed.

(** X3. When the containment check returns, it lists exactly the pairs of
    positions i < j whose first geometry contains the second, so no feature
    is ever reported against itself; when it raises, the exception is the one
    of the containment test of such a pair. *)
Theorem check_containment_exact (w : World) :
  let gdf := geometries (self w) in
  match fst (check_containment w) with
  | Ok r =>
      forall x, x ∈ r <->
        exists i j (f1 f2 : Feature),
          (i < j)%nat /\ gdf !! i = Some f1 /\ gdf !! j = Some f2 /\
          contains (fst f1) (fst f2) = Ok true /\
          x = (fst f1, fst f2, snd f1, snd f2)
  | Raise e =>
      exists i j (f1 f2 : Feature),
        (i < j)%nat /\ gdf !! i = Some f1 /\ gdf !! j = Some f2 /\
        contains (fst f1) (fst f2) = Raise e
  end.
Proof.
  cbv zeta. rewrite check_containment_collect.
  destruct (collect containment_test _ []) as [r|e] eqn:E.
  - intros x. rewrite (collect_elem _ _ _ _ E x). split.
    + intros [Hx | ([[i f1] [j f2]] & Hp & Ht)]; [inversion Hx|].
      apply later_pairs_elem in Hp as (Hi & Hj & Hlt). cbn in *.
      unfold containment_test in Ht.
      destruct (contains (fst f1) (fst f2)) as [[|]|e] eqn:Ec; try discriminate.
      injection Ht as <-. exists i, j, f1, f2. by repeat split.
    + intros (i & j & f1 & f2 & Hlt & Hi & Hj & Hc & ->).
      right. exists ((i, f1), (j, f2)). split.
      * apply later_pairs_elem. by cbn.
      * cbn. unfold containment_test. by rewrite Hc.
  - apply collect_raise in E as ([[i f1] [j f2]] & Hp & Ht).
    apply later_pairs_elem in Hp as (Hi & Hj & Hlt). cbn in *.
    exists i, j, f1, f2. split; [exact Hlt|]. split; [exact Hi|]. split; [exact Hj|].
    unfold containment_test in Ht.
    destruct (contains (fst f1) (fst f2)) as [[|]|e']; try discriminate.
    by injection Ht as ->.
Qed.

(** *** The intersection check *)

Lemma pair_outcome_elem (s : TopologyTest) (row mrow : Feature) l x :
  pair_outcome s row mrow = Ok l ->
  x ∈ l <->
  intersects (fst row) (fst mrow) = Ok true /\
  _is_valid_intersection s (snd row) (snd mrow) = false /\
  exists g a,
    intersection (fst row) (fst mrow) = Ok g /\ is_valid g = Ok true /\
    area g = Ok a /\
    Qle_bool (default 0%Q (min_intersection_area (config s))) a = true /\
    x = (fst row, fst mrow, g, snd row, snd mrow).
Proof.
  unfold pair_outcome, flagged. intros H.
  destruct (intersects (fst row) (fst mrow)) as [[|]|e]; try discriminate.
  2:{ injection H as <-. split; [intros Hx; inversion Hx | intros [? _]; discriminate]. }
  destruct (_is_valid_intersection s (snd row) (snd mrow)).
  { injection H as <-. split; [intros Hx; inversion Hx | intros (_ & ? & _); discriminate]. }
  injection H as <-.
  destruct (intersection (fst row) (fst mrow)) as [g|e]; cbn.
  2:{ split; [intros Hx; inversion Hx | intros (_ & _ & g & a & ? & _); discriminate]. }
  destruct (is_valid g) as [[|]|e] eqn:Ev; cbn;
    try (split; [intros Hx; inversion Hx
                | intros (_ & _ & g' & a & [= <-] & Hv & _); congruence]).
  destruct (area g) as [a|e] eqn:Ea; cbn;
    try (split; [intros Hx; inversion Hx
                | intros (_ & _ & g' & a' & [= <-] & _ & Ha & _); congruence]).
  destruct (Qle_bool _ a) eqn:Eq; cbn.
  - rewrite list_elem_of_singleton. split.
    + intros ->. repeat split. by exists g, a.
    + intros (_ & _ & g' & a' & [= <-] & _ & _ & _ & ->). reflexivity.
  - split; [intros Hx; inversion Hx|].
    intros (_ & _ & g' & a' & [= <-] & _ & Ha' & Hq & _).
    rewrite Ea in Ha'. injection Ha' as <-. congruence.
Qed.

Lemma run_pairs_elem (s : TopologyTest) ps acc trace r trace' x :
  run_pairs s ps acc trace = (Ok r, trace') ->
  x ∈ r <->
  x ∈ acc \/
  exists p l, p ∈ ps /\ pair_outcome s (snd (fst p)) (snd (snd p)) = Ok l /\ x ∈ l.
Proof.
  revert acc trace. induction ps as [|p ps IH]; intros acc trace H; cbn in H.
  - injection H as <- <-. split; [by left|].
    intros [Hx | (p & l & Hp & _)]; [exact Hx | inversion Hp].
  - destruct (pair_outcome s (snd (fst p)) (snd (snd p))) as [l|e] eqn:E;
      [|discriminate].
    rewrite (IH _ _ H), elem_of_app. split.
    + intros [[Hx | Hx] | (q & l' & Hq & Ho & Hx)].
      * by left.
      * right. exists p, l. split; [left | by split].
      * right. exists q, l'. split; [by right | by split].
    + intros [Hx | (q & l' & Hq & Ho & Hx)]; [by left; left|].
      apply elem_of_cons in Hq as [-> | Hq].
      * rewrite E in Ho. injection Ho as ->. left. by right.
      * right. by exists q, l'.
Qed.

Lemma run_pairs_raise (s : TopologyTest) ps acc trace e trace' :
  run_pairs s ps acc trace = (Raise e, trace') ->
  exists p, p ∈ ps /\ pair_outcome s (snd (fst p)) (snd (snd p)) = Raise e.
Proof.
  revert acc trace. induction ps as [|p ps IH]; intros acc trace H; cbn in H;
    [discriminate|].
  destruct (pair_outcome s (snd (fst p)) (snd (snd p))) as [l|e'] eqn:E.
  - destruct (IH _ _ H) as (q & Hq & Ho). exists q. split; [by right | exact Ho].
  - injection H as -> _. exists p. split; [left | exact E].
Qed.

Lemma run_pairs_returns (s : TopologyTest) ps acc trace :
  (forall p, p ∈ ps -> is_ok (intersects (fst (snd (fst p))) (fst (snd (snd p)))) = true) ->
  exists r, fst (run_pairs s ps acc trace) = Ok r.
Proof.
  revert acc trace. induction ps as [|p ps IH]; intros acc trace Hall; cbn.
  - by exists acc.
  - destruct (pair_outcome s (snd (fst p)) (snd (snd p))) as [l|e] eqn:E.
    + apply IH. intros q Hq. apply Hall. by right.
    + apply pair_outcome_raise in E.
      pose proof (Hall p (list_elem_of_here _ _)) as Hok.
      pose proof (f_equal is_ok E) as E'. cbn [is_ok] in E'.
      assert (true = false) as Habs by (rewrite <- Hok; exact E').
      discriminate.
Qed.

(** X4. A first run of the intersection check that returns lists exactly
    the pairs of positions i < j whose bounding boxes meet, whose geometries
    intersect, whose attributes the rules do not exempt, and whose
    intersection geometry is valid with an area of at least
    [min_intersection_area] (0 when not configured). *)
Theorem check_intersections_exact (w : World) (r : list IntersectionIssue) :
  invalid_intersections (self w) = None ->
  fst (check_intersections w) = Ok r ->
  forall x, x ∈ r <->
    exists i j (fi fj : Feature) g a,
      (i < j)%nat /\
      geometries (self w) !! i = Some fi /\
      geometries (self w) !! j = Some fj /\
      bbox_intersects (bounds (fst fi)) (bounds (fst fj)) = true /\
      intersects (fst fi) (fst fj) = Ok true /\
      _is_valid_intersection (self w) (snd fi) (snd fj) = false /\
      intersection (fst fi) (fst fj) = Ok g /\
      is_valid g = Ok true /\ area g = Ok a /\
      Qle_bool (default 0%Q (min_intersection_area (config (self w)))) a = true /\
      x = (fst fi, fst fj, g, snd fi, snd fj).
Proof.
  intros Hc Hr x.
  rewrite (check_intersections_uncached w Hc) in Hr. cbn zeta in Hr.
  destruct (run_pairs (self w) _ [] (probes w)) as [[invalid|e] trace] eqn:E;
    cbn in Hr; [|discriminate].
  injection Hr as ->. rewrite (run_pairs_elem _ _ _ _ _ _ x E). split.
  - intros [Hx | ([[i fi] [j fj]] & l & Hp & Ho & Hx)]; [inversion Hx|].
    apply candidate_pairs_elem in Hp as (Hi & Hj & Hlt & Hb). cbn in *.
    apply elem_of_iterrows in Hi, Hj.
    apply (pair_outcome_elem _ _ _ _ x Ho) in Hx
      as (Hint & Hex & g & a & Hg & Hv & Ha & Hq & ->).
    by exists i, j, fi, fj, g, a.
  - intros (i & j & fi & fj & g & a & Hlt & Hi & Hj & Hb & Hint & Hex & Hg & Hv & Ha & Hq & ->).
    right.
    destruct (pair_outcome (self w) fi fj) as [l|e] eqn:Ho.
    2:{ apply pair_outcome_raise in Ho. congruence. }
    exists ((i, fi), (j, fj)), l. split; [|split; [exact Ho|]].
    + apply candidate_pairs_elem. cbn.
      split; [by apply elem_of_iterrows|]. split; [by apply elem_of_iterrows|]. tauto.
    + apply (pair_outcome_elem _ _ _ _ _ Ho). split; [exact Hint|].
      split; [exact Hex|]. by exists g, a.
Qed.

(** X5. The intersection check raises only through the [intersects] test of
    a candidate pair, on a first run: failures while computing the
    intersection geometry, its validity or its area never leave the check.
    If every [intersects] test between two features returns, so does the
    check. *)
Theorem check_intersections_raise (w : World) :
  (forall e, fst (check_intersections w) = Raise e ->
     invalid_intersections (self w) = None /\
     exists i j (fi fj : Feature),
       (i < j)%nat /\
       geometries (self w) !! i = Some fi /\
       geometries (self w) !! j = Some fj /\
       bbox_intersects (bounds (fst fi)) (bounds (fst fj)) = true /\
       intersects (fst fi) (fst fj) = Raise e) /\
  ((forall i j (fi fj : Feature),
       (i < j)%nat ->
       geometries (self w) !! i = Some fi ->
       geometries (self w) !! j = Some fj ->
       is_ok (intersects (fst fi) (fst fj)) = true) ->
   exists r, fst (check_intersections w) = Ok r).
Proof.
  destruct (invalid_intersections (self w)) as [cached|] eqn:Hc.
  { rewrite (check_intersections_from_cache w cached Hc). split; [discriminate|].
    intros _. by exists cached. }
  rewrite (check_intersections_uncached w Hc). cbn zeta. split.
  - intros e He. split; [reflexivity|].
    destruct (run_pairs (self w) _ [] (probes w)) as [[invalid|e'] trace] eqn:E;
      cbn in He; [discriminate|].
    injection He as ->.
    apply run_pairs_raise in E as ([[i fi] [j fj]] & Hp & Ho).
    apply candidate_pairs_elem in Hp as (Hi & Hj & Hlt & Hb). cbn in *.
    apply elem_of_iterrows in Hi, Hj. apply pair_outcome_raise in Ho.
    by exists i, j, fi, fj.
  - intros Hall.
    destruct (run_pairs_returns (self w) (candidate_pairs (geometries (self w)))
                [] (probes w)) as [r Hr].
    { intros [[i fi] [j fj]] Hp.
      apply candidate_pairs_elem in Hp as (Hi & Hj & Hlt & _). cbn in *.
      apply elem_of_iterrows in Hi, Hj. by apply (Hall i j). }
    exists r.
    destruct (run_pairs (self w) _ [] (probes w)) as [[invalid|e'] trace];
      cbn in *; congruence.
Qed.

(** X6. After a call of the intersection check the cache holds exactly what
    the call returned, an empty list included; a call that raised leaves the
    cache as it was.  Nothing else of the instance changes and nothing is
    printed. *)
Theorem check_intersections_effect (w : World) :
  let out := check_intersections w in
  invalid_intersections (self (snd out)) =
    match fst out with
    | Ok l => Some l
    | Raise _ => invalid_intersections (self w)
    end /\
  geometries (self (snd out)) = geometries (self w) /\
  config (self (snd out)) = config (self w) /\
  rules (self (snd out)) = rules (self w) /\
  dataset_type (self (snd out)) = dataset_type (self w) /\
  stdout (snd out) = stdout w.
Proof.
  cbv zeta.
  destruct (invalid_intersections (self w)) as [cached|] eqn:Hc.
  - rewrite (check_intersections_from_cache w cached Hc). cbn. by rewrite Hc.
  - rewrite (check_intersections_uncached w Hc). cbn zeta.
    destruct (run_pairs (self w) _ [] (probes w)) as [[invalid|e] trace];
      cbn; by rewrite ?Hc.
Qed.

End PairCheckResults.

(** ** Gaps and dangles *)

Section GapsDangles.
Context {Geom : Type} `{K : GeometryKernel Geom}.
Local Abbreviation World := (@World Geom).
Local Abbreviation Feature := (@Feature Geom).

(** X7. The gap check reports a region exactly when there is a Polygon
    feature, the kernel computes the buffered union minus the union, and
    finds it not empty; the region reported is that difference. *)
Theorem check_gaps_reports (tolerance : Q) (w : World) (gaps : Geom) :
  fst (check_gaps tolerance w) = Ok (Some gaps) <->
  polygons_of (geometries (self w)) <> [] /\
  gap_region (polygons_of (geometries (self w))) tolerance = Ok gaps /\
  is_empty gaps = Ok false.
Proof.
  rewrite check_gaps_cases.
  destruct (polygons_of (geometries (self w))) as [|p ps].
  { split; [discriminate | intros [H _]; by destruct H]. }
  destruct (gap_region (p :: ps) tolerance) as [g|e].
  2:{ split; [discriminate | intros (_ & H & _); discriminate]. }
  destruct (is_empty g) as [[|]|e] eqn:E.
  - split; [discriminate | intros (_ & [= <-] & H); congruence].
  - split.
    + intros [= <-]. by repeat split.
    + intros (_ & [= <-] & _). reflexivity.
  - split; [discriminate | intros (_ & [= <-] & H); congruence].
Qed.

(** X8. The gap check prints one line, and only then: when the union, the
    buffer, the difference or the emptiness test raised, the line being
    ["Error checking for gaps: "] followed by the exception's message. *)
Theorem check_gaps_log (tolerance : Q) (w : World) :
  stdout (snd (check_gaps tolerance w)) =
  stdout w ++
  match polygons_of (geometries (self w)) with
  | [] => []
  | polygons =>
      match gap_region polygons tolerance with
      | Raise e => [gaps_error_line e]
      | Ok gaps =>
          match is_empty gaps with
          | Raise e => [gaps_error_line e]
          | Ok _ => []
          end
      end
  end.
Proof.
  unfold check_gaps, polygons_of, gap_region, gaps_error_line.
  unfold bind at 1. unfold get_self. cbn beta iota.
  destruct (geometries (self w)) as [|f gdf] eqn:Eg; [by rewrite app_nil_r|].
  destruct ((filter _ (f :: gdf)).*1) as [|p ps] eqn:Ep; [by rewrite app_nil_r|].
  unfold try_except, bind, lift, ret, print.
  destruct (unary_union (p :: ps)) as [u|e]; [|reflexivity].
  destruct (buffer u tolerance) as [b|e]; [|reflexivity].
  destruct (difference b u) as [g|e]; [|reflexivity].
  destruct (is_empty g) as [[|]|e]; cbn; by rewrite ?app_nil_r.
Qed.

(** Without a LineString the dangle loop leaves its list as it is. *)
Lemma dangles_loop_no_lines (network : Geom) (gdf : list Feature)
    (dangles : list Feature) (w : World) :
  (forall f, f ∈ gdf -> geom_type (fst f) <> LineString) ->
  fst (for_each gdf
         (fun dangles f =>
            if GeomType_eqb (geom_type (fst f)) LineString then
              load_global "Point" ;;;
              start_point <- lift (coords_first (fst f)) ;;
              load_global "Point" ;;;
              end_point <- lift (coords_last (fst f)) ;;
              rest1 <- lift (difference network (fst f)) ;;
              t1 <- lift (intersects rest1 start_point) ;;
              if negb t1 then ret (dangles ++ [f])
              else
                rest2 <- lift (difference network (fst f)) ;;
                t2 <- lift (intersects rest2 end_point) ;;
                if negb t2 then ret (dangles ++ [f]) else ret dangles
            else ret dangles)
         dangles w) = Ok dangles.
Proof.
  intros Hno. induction gdf as [|g gdf IH]; [reflexivity|].
  cbn [for_each]. unfold bind at 1.
  destruct (GeomType_eqb (geom_type (fst g)) LineString) eqn:E.
  - exfalso. apply (Hno g); [left|].
    destruct (geom_type (fst g)); try discriminate. reflexivity.
  - cbn. apply IH. intros f Hf. apply Hno. by right.
Qed.

Lemma check_dangles_cases (w : World) :
  fst (check_dangles w) =
  match unary_union (geometries (self w)).*1 with
  | Raise e => Raise e
  | Ok _ =>
      if existsb (fun f : Feature => GeomType_eqb (geom_type (fst f)) LineString)
                 (geometries (self w))
      then Raise (NameError "Point")
      else Ok []
  end.
Proof.
  unfold check_dangles.
  unfold bind at 1. unfold get_self. cbn beta iota.
  unfold bind at 1. unfold lift at 1.
  destruct (unary_union (geometries (self w)).*1) as [network|e]; [|reflexivity].
  destruct (existsb _ (geometries (self w))) eqn:E.
  - apply dangles_loop_raises. apply existsb_exists in E as (f & Hf & Ht).
    exists f. split; [by apply list_elem_of_In|].
    destruct (geom_type (fst f)); try discriminate. reflexivity.
  - apply dangles_loop_no_lines. intros f Hf Hline.
    assert (existsb (fun f : Feature => GeomType_eqb (geom_type (fst f)) LineString)
                    (geometries (self w)) = true) as Habs; [|congruence].
    apply existsb_exists. exists f. split; [by apply list_elem_of_In|].
    by rewrite Hline.
Qed.

(** X9. In this version the dangle check never reports a dangle: whenever it
    returns, the list is empty and the collection holds no LineString; and on
    a collection without LineString whose union the kernel computes it
    returns the empty list. *)
Theorem check_dangles_never_reports (w : World) :
  (forall r, fst (check_dangles w) = Ok r ->
     r = [] /\
     forall f, f ∈ geometries (self w) -> geom_type (fst f) <> LineString) /\
  ((forall f, f ∈ geometries (self w) -> geom_type (fst f) <> LineString) ->
   forall u, unary_union (geometries (self w)).*1 = Ok u ->
             fst (check_dangles w) = Ok []).
Proof.
  rewrite check_dangles_cases. split.
  - intros r Hr.
    destruct (unary_union (geometries (self w)).*1) as [u|e]; [|discriminate].
    destruct (existsb _ (geometries (self w))) eqn:E; [discriminate|].
    injection Hr as <-. split; [reflexivity|].
    intros f Hf Hline.
    assert (existsb (fun f : Feature => GeomType_eqb (geom_type (fst f)) LineString)
                    (geometries (self w)) = true) as Habs; [|congruence].
    apply existsb_exists. exists f. split; [by apply list_elem_of_In|].
    by rewrite Hline.
  - intros Hno u ->.
    destruct (existsb _ (geometries (self w))) eqn:E; [|reflexivity].
    apply existsb_exists in E as (f & Hf & Ht). exfalso.
    apply (Hno f); [by apply list_elem_of_In|].
    destruct (geom_type (fst f)); try discriminate. reflexivity.
Qed.

End GapsDangles.

(** ** More on the orchestrator *)

Section OrchestratorResults.
Context {Geom : Type} `{K : GeometryKernel Geom}.
Local Abbreviation World := (@World Geom).
Local Abbreviation Feature := (@Feature Geom).
Local Abbreviation TopologyTest := (@TopologyTest Geom).
Local Abbreviation CheckResult := (@CheckResult Geom).

Lemma insert_opt_lookup (name k : string) (o : option CheckResult)
    (results : gmap string CheckResult) (v : CheckResult) :
  insert_opt name o results !! k = Some v ->
  (k = name /\ o = Some v) \/ results !! k = Some v.
Proof.
  destruct o as [v'|]; cbn; [|by right].
  destruct (decide (name = k)) as [->|Hne].
  - rewrite lookup_insert_eq. intros [= ->]. by left.
  - rewrite lookup_insert_ne by done. by right.
Qed.

(** Every entry of the mapping a run returns was stored by an enabled stage
    and passed the final filter. *)
Lemma run_stages_sound (l : list Stage) (results m : gmap string CheckResult)
    (k : string) (v : CheckResult) :
  run_stages l results = Ok m -> m !! k = Some v ->
  keep_result v = true /\
  (results !! k = Some v \/
   exists st, st ∈ l /\ stage_name st = k /\ stage_on st = true /\
              stage_outcome st = Ok (Some v)).
Proof.
  revert results. induction l as [|st l IH]; intros results Hm Hk; cbn in Hm.
  - injection Hm as <-. apply map_lookup_filter_Some in Hk as [Hk Hkeep].
    split; [exact Hkeep | by left].
  - destruct (stage_on st) eqn:Hon.
    + destruct (stage_outcome st) as [o|e] eqn:Ho; [|discriminate].
      destruct (IH _ Hm Hk) as [Hkeep [Hin | (st' & Hst' & Hrest)]].
      * split; [exact Hkeep|].
        apply insert_opt_lookup in Hin as [[-> ->] | Hin]; [|by left].
        right. exists st. split; [left | by repeat split].
      * split; [exact Hkeep|]. right. exists st'. split; [by right | exact Hrest].
    + destruct (IH _ Hm Hk) as [Hkeep [Hin | (st' & Hst' & Hrest)]].
      * split; [exact Hkeep | by left].
      * split; [exact Hkeep|]. right. exists st'. split; [by right | exact Hrest].
Qed.

(** X10. Every entry of the mapping [validate_topology] returns is the
    result of an enabled check, stored under that check's name, and is never
    an empty list. *)
Theorem validate_topology_entries (w : World)
    (m : gmap string CheckResult) (k : string) (v : CheckResult) :
  fst (validate_topology w) = Ok m ->
  m !! k = Some v ->
  keep_result v = true /\
  exists st, st ∈ stages w /\ stage_name st = k /\ stage_on st = true /\
             stage_outcome st = Ok (Some v).
Proof.
  rewrite validate_topology_value. intros Hm Hk.
  destruct (run_stages_sound _ _ _ _ _ Hm Hk) as [Hkeep [Habs | Hst]].
  - rewrite lookup_empty in Habs. discriminate.
  - by split.
Qed.

Lemma stages_dangles (w : World) (st : Stage) :
  st ∈ stages w -> stage_name st = "dangles" ->
  stage_outcome st = res_map (fun r => Some (RFeatures r)) (fst (check_dangles w)).
Proof.
  unfold stages. intros Hin Hname.
  repeat (apply elem_of_cons in Hin as [-> | Hin]; [try discriminate; reflexivity|]).
  inversion Hin.
Qed.

(** X11. The mapping [validate_topology] returns never has a "dangles"
    entry. *)
Theorem validate_topology_no_dangles (w : World) (m : gmap string CheckResult) :
  fst (validate_topology w) = Ok m -> m !! "dangles" = None.
Proof.
  rewrite validate_topology_value. intros Hm.
  destruct (m !! "dangles") as [v|] eqn:Hk; [exfalso | reflexivity].
  destruct (run_stages_sound _ _ _ _ _ Hm Hk) as [Hkeep [Habs | (st & Hin & Hn & _ & Ho)]].
  { rewrite lookup_empty in Habs. discriminate. }
  rewrite (stages_dangles w st Hin Hn), check_dangles_cases in Ho.
  destruct (unary_union (geometries (self w)).*1) as [u|e]; [|discriminate].
  destruct (existsb _ (geometries (self w))); [discriminate|].
  cbn in Ho. injection Ho as <-. discriminate.
Qed.

(** X12. With the dangle check enabled, as it is by default,
    [validate_topology] raises on every collection that holds a LineString:
    no result mapping is returned for a line network. *)
Theorem validate_topology_fails_on_lines (w : World) :
  enabled (self w) "dangles" = true ->
  (exists f, f ∈ geometries (self w) /\ geom_type (fst f) = LineString) ->
  exists e, fst (validate_topology w) = Raise e.
Proof.
  intros Hon (f & Hf & Hline). rewrite validate_topology_value.
  destruct (run_stages (stages w) ∅) as [m|e] eqn:E; [exfalso | by exists e].
  pose proof (proj1 (run_stages_ok (stages w) ∅) (ex_intro _ m E)) as Hok.
  assert (mkStage "dangles" (enabled (self w) "dangles")
            (res_map (fun r => Some (RFeatures r)) (fst (check_dangles w)))
          ∈ stages w) as Hin.
  { unfold stages. do 3 apply list_elem_of_further. apply list_elem_of_here. }
  pose proof (Hok _ Hin Hon) as Habs. cbn [stage_outcome] in Habs.
  assert (existsb (fun f : Feature => GeomType_eqb (geom_type (fst f)) LineString)
                  (geometries (self w)) = true) as Hex.
  { apply existsb_exists. exists f. split; [by apply list_elem_of_In | by rewrite Hline]. }
  rewrite check_dangles_cases, Hex in Habs.
  destruct (unary_union (geometries (self w)).*1); discriminate.
Qed.

(** X13. With the six checks switched off [validate_topology] returns the
    empty mapping and leaves the world as it is: no geometry is looked at,
    nothing is cached or printed. *)
Theorem validate_topology_all_disabled (w : World) :
  (forall name, name ∈ check_names -> enabled (self w) name = false) ->
  validate_topology w = (Ok ∅, w).
Proof.
  intros Hoff. unfold validate_topology, enabled_check, bind, get_self, ret.
  rewrite !Hoff by (unfold check_names; apply list_elem_of_In; cbn; tauto).
  by rewrite map_filter_empty.
Qed.

(** *** Settings the run does not depend on *)

Lemma run_pairs_ext (s s' : TopologyTest) ps acc trace trace' :
  (forall row mrow, pair_outcome s row mrow = pair_outcome s' row mrow) ->
  fst (run_pairs s ps acc trace) = fst (run_pairs s' ps acc trace').
Proof.
  intros Hext. revert acc trace trace'.
  induction ps as [|p ps IH]; intros acc trace trace'; cbn; [reflexivity|].
  rewrite Hext.
  destruct (pair_outcome s' (snd (fst p)) (snd (snd p))) as [l|e];
    [apply IH | reflexivity].
Qed.

Lemma check_intersections_value (w w' : World) :
  geometries (self w) = geometries (self w') ->
  invalid_intersections (self w) = invalid_intersections (self w') ->
  (forall row mrow, pair_outcome (self w) row mrow = pair_outcome (self w') row mrow) ->
  fst (check_intersections w) = fst (check_intersections w').
Proof.
  intros Hg Hc Hext.
  destruct (invalid_intersections (self w)) as [cached|] eqn:E.
  - rewrite (check_intersections_from_cache w cached E).
    by rewrite (check_intersections_from_cache w' cached).
  - rewrite (check_intersections_uncached w E).
    rewrite (check_intersections_uncached w') by done. cbn zeta.
    rewrite <- Hg.
    pose proof (run_pairs_ext (self w) (self w')
                  (candidate_pairs (geometries (self w))) [] (probes w) (probes w')
                  Hext) as Heq.
    destruct (run_pairs (self w) _ [] (probes w)) as [[r|e] t],
             (run_pairs (self w') _ [] (probes w')) as [[r'|e'] t'];
      cbn in *; congruence.
Qed.

(** X14. [validate_topology] reads neither the configured tolerances (the
    gap and overlap checks always run with tolerance 0) nor the dataset type,
    [id_attribute], [output_folder_name], [allow_overlap_if] or the
    configuration's copy of [allow_intersection_if]: replacing them leaves
    its result unchanged. *)
Theorem validate_topology_ignores_unused_settings (w : World)
    (dt : string) (ida ofn : option string) (tol : option (gmap string Q))
    (cai cao rao : option (list Condition)) :
  fst (validate_topology (set_unused_settings dt ida ofn tol cai cao rao w)) =
  fst (validate_topology w).
Proof.
  rewrite !validate_topology_value. unfold stages.
  set (w' := set_unused_settings dt ida ofn tol cai cao rao w).
  assert (fst (check_intersections w') = fst (check_intersections w)) as ->
    by (apply check_intersections_value; reflexivity).
  assert (fst (check_self_intersections w') = fst (check_self_intersections w)) as ->
    by (apply check_self_intersections_value; reflexivity).
  assert (fst (check_gaps 0 w') = fst (check_gaps 0 w)) as ->
    by (apply check_gaps_value; reflexivity).
  assert (fst (check_dangles w') = fst (check_dangles w)) as ->
    by (apply check_dangles_value; reflexivity).
  assert (fst (check_overlaps 0 w') = fst (check_overlaps 0 w)) as ->
    by (apply check_overlaps_value; reflexivity).
  assert (fst (check_containment w') = fst (check_containment w)) as ->
    by (apply check_containment_value; reflexivity).
  reflexivity.
Qed.

End OrchestratorResults.

(** ** More on the rule evaluator *)

Section RuleEvaluatorResults.
Context {Geom : Type}.
Local Abbreviation TopologyTest := (@TopologyTest Geom).

Lemma any_condition_met_comm (conditions : list Condition)
    (attr1 attr2 : gmap string Scalar) :
  any_condition_met conditions attr1 attr2 = any_condition_met conditions attr2 attr1.
Proof.
  induction conditions as [|c cs IH]; cbn; [reflexivity|].
  rewrite IH, orb_comm. reflexivity.
Qed.

Lemma any_condition_met_exists (conditions : list Condition)
    (attr1 attr2 : gmap string Scalar) :
  any_condition_met conditions attr1 attr2 = true <->
  exists c, c ∈ conditions /\
    (py_in (attr_get attr1 (attribute c)) (default [] (values c)) = true \/
     py_in (attr_get attr2 (attribute c)) (default [] (values c)) = true).
Proof.
  induction conditions as [|c cs IH]; cbn.
  - split; [discriminate | intros (c & Hc & _); inversion Hc].
  - destruct (py_in (attr_get attr1 (attribute c)) (default [] (values c))) eqn:E1;
      cbn.
    { split; [|reflexivity]. intros _. exists c. split; [left | by left]. }
    destruct (py_in (attr_get attr2 (attribute c)) (default [] (values c))) eqn:E2.
    { split; [|reflexivity]. intros _. exists c. split; [left | by right]. }
    rewrite IH. split.
    + intros (c' & Hc' & H). exists c'. split; [by right | exact H].
    + intros (c' & Hc' & H). apply elem_of_cons in Hc' as [-> | Hc'].
      * destruct H; congruence.
      * by exists c'.
Qed.

(** X15. The rule evaluator does not depend on the order of the two
    features: swapping the attribute mappings gives the same answer. *)
Theorem is_valid_intersection_symmetric (s : TopologyTest)
    (attr1 attr2 : gmap string Scalar) :
  _is_valid_intersection s attr1 attr2 = _is_valid_intersection s attr2 attr1.
Proof.
  unfold _is_valid_intersection.
  destruct (default [] (allow_intersection_if (rules s))); [reflexivity|].
  apply any_condition_met_comm.
Qed.

(** X16. An intersection is exempt exactly when some condition of
    [allow_intersection_if] lists, among its values, what either feature
    carries under the condition's attribute (null when it carries nothing):
    one matching feature is enough, and a condition without values exempts
    nothing. *)
Theorem is_valid_intersection_iff (s : TopologyTest)
    (attr1 attr2 : gmap string Scalar) :
  _is_valid_intersection s attr1 attr2 = true <->
  exists c, c ∈ default [] (allow_intersection_if (rules s)) /\
    (py_in (attr_get attr1 (attribute c)) (default [] (values c)) = true \/
     py_in (attr_get attr2 (attribute c)) (default [] (values c)) = true).
Proof.
  unfold _is_valid_intersection.
  destruct (default [] (allow_intersection_if (rules s))) as [|c cs] eqn:E.
  - split; [discriminate | intros (c & Hc & _); inversion Hc].
  - apply any_condition_met_exists.
Qed.

End RuleEvaluatorResults.

(** * Construction and reporting *)

Section Construction.
Import V150527.
Context {Geom : Type}.

Lemma path_exists_lookup {A} (files : gmap string A) (path : string) :
  path_exists files path = true <-> path <> "" /\ is_Some (files !! path).
Proof.
  unfold path_exists. destruct (String.eqb_spec path "") as [->|Hne].
  - split; [discriminate | intros [H _]; by destruct H].
  - destruct (files !! path) as [d|].
    + split; [intros _; split; [exact Hne | by exists d] | reflexivity].
    + split; [discriminate | intros [_ [d Hd]]; discriminate].
Qed.

Lemma load_rules_returns (files : gmap string ConfigDocument)
    (dataset_type config_file : string) (rules : gmap string JSON) :
  _load_rules files dataset_type config_file = Returns rules <->
  config_file <> "" /\
  exists doc, files !! config_file = Some doc /\
              default ∅ (dataset_rules doc) !! dataset_type = Some rules /\
              rules <> ∅.
Proof.
  unfold _load_rules.
  destruct (path_exists files config_file) eqn:E; cbn [negb].
  - apply path_exists_lookup in E as [Hne [doc Hdoc]]. rewrite Hdoc.
    destruct (default ∅ (dataset_rules doc) !! dataset_type) as [entry|] eqn:He.
    + case_bool_decide as Hempty.
      * split; [discriminate|].
        intros (_ & doc' & [= <-] & Hr & Hn). rewrite He in Hr.
        injection Hr as <-. contradiction.
      * split.
        -- intros [= <-]. split; [exact Hne|]. by exists doc.
        -- intros (_ & doc' & [= <-] & Hr & _). rewrite He in Hr. by injection Hr as <-.
    + split; [discriminate|].
      intros (_ & doc' & [= <-] & Hr & _). rewrite He in Hr. discriminate.
  - split; [discriminate|].
    intros (Hne & doc & Hdoc & _).
    assert (path_exists files config_file = true) as Habs; [|congruence].
    apply path_exists_lookup. split; [exact Hne | by exists doc].
Qed.


(** X18. Building an instance fails in exactly three ways, tried in this
    order: the configuration file does not exist ([FileNotFoundError], also
    for an empty path); the file has no rules entry for the dataset type, or
    an empty one (the same [ValueError] for both); [_load_geometries]
    raises. *)
Theorem init_raises
    (_load_geometries : string -> outcome (list (@Feature Geom)))
    (files : gmap string ConfigDocument)
    (geojson_file dataset_type config_file : string) (e : PyError) :
  __init__ _load_geometries files geojson_file dataset_type config_file
    = Raises e <->
  (path_exists files config_file = false /\
   e = FileNotFoundError ("Config file not found: " ++ config_file)%string) \/
  (exists doc,
      path_exists files config_file = true /\ files !! config_file = Some doc /\
      (default ∅ (dataset_rules doc) !! dataset_type = None \/
       default ∅ (dataset_rules doc) !! dataset_type = Some ∅) /\
      e = ValueError ("Dataset type '" ++ dataset_type
                      ++ "' not found in config.")%string) \/
  ((exists rules, _load_rules files dataset_type config_file = Returns rules) /\
   _load_geometries geojson_file = Raises e).
Proof.
  unfold __init__.
  destruct (_load_rules files dataset_type config_file) as [rules|e'] eqn:Er.
  - split.
    + intros H. right. right. split; [by exists rules|].
      destruct (_load_geometries geojson_file); [discriminate | by injection H as ->].
    + apply load_rules_returns in Er as (Hne & doc & Hdoc & Hentry & Hnonempty).
      assert (path_exists files config_file = true) as Hex
        by (apply path_exists_lookup; split; [exact Hne | by exists doc]).
      intros [[Hno _] | [(doc' & _ & Hdoc' & Hbad & _) | [_ Hg]]].
      * congruence.
      * rewrite Hdoc in Hdoc'. injection Hdoc' as <-.
        destruct Hbad as [Hbad | Hbad]; rewrite Hentry in Hbad;
          [discriminate | by injection Hbad].
      * by rewrite Hg.
  - unfold _load_rules in Er.
    destruct (path_exists files config_file) eqn:Ex; cbn [negb] in Er.
    + pose proof Ex as Ex'. apply path_exists_lookup in Ex' as [Hne [doc Hdoc]].
      rewrite Hdoc in Er.
      destruct (default ∅ (dataset_rules doc) !! dataset_type) as [entry|] eqn:He.
      * case_bool_decide as Hempty; [|discriminate]. injection Er as <-. subst entry.
        split.
        -- intros [= <-]. right. left. exists doc. repeat split; auto.
        -- intros [[Hno _] | [(doc' & _ & _ & _ & ->) | [[r Hr] _]]];
             [discriminate | reflexivity | discriminate].
      * injection Er as <-. split.
        -- intros [= <-]. right. left. exists doc. repeat split; auto.
        -- intros [[Hno _] | [(doc' & _ & _ & _ & ->) | [[r Hr] _]]];
             [discriminate | reflexivity | discriminate].
    + assert (e' = FileNotFoundError ("Config file not found: " ++ config_file)%string)
        as -> by (by injection Er).
      split.
      * intros [= <-]. by left.
      * intros [[_ ->] | [(doc' & Hex & _) | [[r Hr] _]]];
          [reflexivity | discriminate | discriminate].
Qed.

Lemma require_settings_ok (settings : gmap string JSON) (names : list string) :
  require_settings settings names = Returns tt <->
  forall n, n ∈ names -> is_Some (settings !! n).
Proof.
  induction names as [|n names IH]; cbn.
  - split; [intros _ n Hn; inversion Hn | reflexivity].
  - destruct (settings !! n) as [v|] eqn:E.
    + rewrite IH. split.
      * intros H n' Hn'. apply elem_of_cons in Hn' as [-> | Hn']; [by exists v | by apply H].
      * intros H n' Hn'. apply H. by right.
    + split; [discriminate|]. intros H.
      destruct (H n (list_elem_of_here _ _)) as [v Hv]. congruence.
Qed.

(** X19. [_validate_config_structure] accepts a configuration exactly when
    it has both sections, the global settings hold [enabled_checks] and
    [tolerances], and the dataset type has an entry in the rules, an empty
    entry included. *)
Theorem validate_config_structure_accepts (dataset_type : string)
    (config : ConfigDocument) :
  _validate_config_structure dataset_type config = Returns tt <->
  exists settings rules,
    global_settings config = Some settings /\
    dataset_rules config = Some rules /\
    is_Some (settings !! "enabled_checks") /\
    is_Some (settings !! "tolerances") /\
    is_Some (rules !! dataset_type).
Proof.
  unfold _validate_config_structure. cbn [require_sections].
  unfold has_section. cbn [String.eqb Ascii.eqb Bool.eqb andb negb].
  destruct (global_settings config) as [settings|] eqn:Eg; cbn [negb].
  2:{ split; [discriminate | intros (s & r & [=] & _)]. }
  destruct (dataset_rules config) as [rules|] eqn:Ed; cbn [negb].
  2:{ split; [discriminate | intros (s & r & _ & [=] & _)]. }
  cbn [from_option id].
  destruct (require_settings settings ["enabled_checks"; "tolerances"])
    as [[]|e] eqn:Es.
  - pose proof (proj1 (require_settings_ok _ _) Es) as Es'. clear Es.
    rename Es' into Es.
    destruct (rules !! dataset_type) as [entry|] eqn:Ee.
    + split; [|reflexivity]. intros _. exists settings, rules.
      repeat split; [apply Es; left | apply Es; right; left | by exists entry].
    + split; [discriminate|].
      intros (s & r & _ & [= <-] & _ & _ & [x Hx]). congruence.
  - split; [discriminate|].
    intros (s & r & [= <-] & _ & H1 & H2 & _).
    assert (require_settings settings ["enabled_checks"; "tolerances"] = Returns tt)
      as Habs; [|congruence].
    apply require_settings_ok. intros n Hn.
    apply elem_of_cons in Hn as [-> | Hn]; [exact H1|].
    apply list_elem_of_singleton in Hn as ->. exact H2.
Qed.

End Construction.

Section Reporting.
Context {Geom : Type} `{K : GeometryKernel Geom}.
Local Abbreviation World := (@World Geom).
Local Abbreviation Feature := (@Feature Geom).
Local Abbreviation TopologyTest := (@TopologyTest Geom).
Local Abbreviation IntersectionIssue := (@IntersectionIssue Geom).

Lemma py_eq_refl (x : Scalar) : py_eq x x = true.
Proof.
  destruct x as [|[|]|q|s]; cbn; try reflexivity.
  - apply Qeq_bool_refl.
  - apply String.eqb_refl.
Qed.

Lemma set_add_elem (x y : Scalar) (ids : list Scalar) :
  y ∈ Current.set_add x ids -> y ∈ ids \/ y = x.
Proof.
  unfold Current.set_add. destruct (existsb (py_eq x) ids); [by left|].
  rewrite elem_of_app, list_elem_of_singleton. tauto.
Qed.

Lemma set_add_NoDup (x : Scalar) (ids : list Scalar) :
  NoDup ids -> NoDup (Current.set_add x ids).
Proof.
  intros Hnd. unfold Current.set_add.
  destruct (existsb (py_eq x) ids) eqn:E; [exact Hnd|].
  apply NoDup_app. split; [exact Hnd|]. split; [|apply NoDup_singleton].
  intros y Hy Hyx. apply list_elem_of_singleton in Hyx as ->.
  assert (existsb (py_eq x) ids = true) as Habs; [|congruence].
  apply existsb_exists. exists x. split; [by apply list_elem_of_In | apply py_eq_refl].
Qed.

Lemma set_add_length (x : Scalar) (ids : list Scalar) :
  (length (Current.set_add x ids) <= S (length ids))%nat.
Proof.
  unfold Current.set_add. destruct (existsb (py_eq x) ids); [lia|].
  rewrite length_app. cbn. lia.
Qed.

Lemma intersected_ids_facts (s : TopologyTest) (invalid : list IntersectionIssue)
    (ids : list Scalar) :
  (NoDup ids -> NoDup (Current.intersected_ids s invalid ids)) /\
  (length (Current.intersected_ids s invalid ids) <= length ids + 2 * length invalid)%nat /\
  (forall y, y ∈ Current.intersected_ids s invalid ids ->
     y ∈ ids \/
     exists x, x ∈ invalid /\
       (y = Current.feature_id s (snd (fst x)) \/ y = Current.feature_id s (snd x))).
Proof.
  revert ids. induction invalid as [|[[[[g1 g2] g] a1] a2] invalid IH]; intros ids; cbn.
  - split; [tauto|]. split; [lia|]. intros y Hy. by left.
  - destruct (IH (Current.set_add (Current.feature_id s a2)
                    (Current.set_add (Current.feature_id s a1) ids)))
      as (Hnd & Hlen & Hel).
    split; [|split].
    + intros H. by apply Hnd, set_add_NoDup, set_add_NoDup.
    + pose proof (set_add_length (Current.feature_id s a2)
                    (Current.set_add (Current.feature_id s a1) ids)).
      pose proof (set_add_length (Current.feature_id s a1) ids). lia.
    + intros y Hy. destruct (Hel y Hy) as [Hin | (x & Hx & Hxy)].
      * apply set_add_elem in Hin as [Hin | ->].
        -- apply set_add_elem in Hin as [Hin | ->]; [by left|].
           right. exists (g1, g2, g, a1, a2). split; [left | by left].
        -- right. exists (g1, g2, g, a1, a2). split; [left | by right].
      * right. exists x. split; [by right | exact Hxy].
Qed.

(** The attribute mappings of an issue are those of two features. *)
Lemma issue_attributes (w : World) (r : list IntersectionIssue) (x : IntersectionIssue) :
  invalid_intersections (self w) = None ->
  fst (check_intersections w) = Ok r -> x ∈ r ->
  exists fi fj : Feature,
    fi ∈ geometries (self w) /\ fj ∈ geometries (self w) /\
    snd (fst x) = snd fi /\ snd x = snd fj.
Proof.
  intros Hc Hr Hx.
  rewrite (check_intersections_uncached w Hc) in Hr. cbn zeta in Hr.
  destruct (run_pairs (self w) _ [] (probes w)) as [[invalid|e] trace] eqn:E;
    cbn in Hr; [|discriminate].
  injection Hr as ->.
  apply (run_pairs_elem _ _ _ _ _ _ x E) in Hx
    as [Hx | ([[i fi] [j fj]] & l & Hp & Ho & Hx)]; [inversion Hx|].
  apply candidate_pairs_elem in Hp as (Hi & Hj & _). cbn in *.
  apply elem_of_iterrows in Hi, Hj.
  apply (pair_outcome_elem _ _ _ _ x Ho) in Hx as (_ & _ & g & a & _ & _ & _ & _ & ->).
  exists fi, fj. cbn.
  split; [by eapply list_elem_of_lookup_2|]. split; [by eapply list_elem_of_lookup_2|].
  by split.
Qed.

Lemma check_intersections_no_features (w : World) :
  geometries (self w) = [] -> exists r, fst (check_intersections w) = Ok r.
Proof.
  intros Hg. destruct (invalid_intersections (self w)) as [cached|] eqn:Hc.
  - rewrite (check_intersections_from_cache w cached Hc). by exists cached.
  - rewrite (check_intersections_uncached w Hc), Hg. cbn. by exists [].
Qed.

(** X20. On an instance without features [report_summary] raises
    [ZeroDivisionError]: the share of intersected geometries divides by the
    number of features. *)
Theorem report_summary_no_features (w : World) :
  geometries (self w) = [] ->
  fst (Current.report_summary w) = Raises (ZeroDivisionError "division by zero").
Proof.
  intros Hg. unfold Current.report_summary.
  destruct (check_intersections_no_features w Hg) as [r Hr].
  destruct (check_intersections_inputs w) as [Hg' _].
  destruct (check_intersections w) as [[r'|e] w']; cbn in *; [|discriminate].
  by rewrite Hg', Hg.
Qed.

Lemma ratio_percent (a b : nat) :
  (0 < b)%nat -> (a <= b)%nat -> (Current.ratio a b * 100 <= 100)%Q.
Proof.
  intros Hb Hab. unfold Current.ratio.
  destruct b as [|b]; [lia|].
  unfold Qle, Qdiv, Qmult, Qinv. cbn -[Z.mul Z.of_nat Pos.mul].
  change (Z.of_nat (S b)) with (Z.pos (Pos.of_succ_nat b)).
  cbn -[Z.mul Z.of_nat Pos.mul].
  rewrite Pos.mul_1_l, Pos.mul_1_r, Zpos_P_of_succ_nat. lia.
Qed.

(** X21. When [report_summary] returns on a freshly built instance, the
    collection is not empty, the number of intersected geometries is at most
    the number of features and at most twice the number of issues, and the
    percentage printed is at most 100. *)
Theorem report_summary_bounds (w : World) (sm : Current.Summary) :
  invalid_intersections (self w) = None ->
  fst (Current.report_summary w) = Returns sm ->
  Current.total_geometries sm = length (geometries (self w)) /\
  (0 < Current.total_geometries sm)%nat /\
  (Current.num_intersected_geometries sm <= Current.total_geometries sm)%nat /\
  (Current.percentage_intersected sm <= 100)%Q /\
  exists r, fst (check_intersections w) = Ok r /\
            (Current.num_intersected_geometries sm <= 2 * length r)%nat.
Proof.
  intros Hc Hs. unfold Current.report_summary in Hs.
  destruct (check_intersections_inputs w) as [Hg Hcfg].
  pose proof (issue_attributes w) as Hattr.
  destruct (check_intersections w) as [[r|e] w'] eqn:E; cbn in *; [|discriminate].
  destruct (Nat.eqb_spec (length (geometries (self w'))) 0) as [|Hpos];
    [discriminate|].
  injection Hs as <-. cbn. rewrite Hg in *.
  destruct (intersected_ids_facts (self w') r []) as (Hnd & Hlen & Hel).
  assert (length (Current.intersected_ids (self w') r [])
          <= length (geometries (self w)))%nat as Hle.
  { rewrite <- (length_fmap (fun f : Feature => Current.feature_id (self w') (snd f))).
    apply submseteq_length, NoDup_submseteq; [apply Hnd; constructor|].
    intros y Hy. destruct (Hel y Hy) as [Hin | (x & Hx & Hxy)]; [inversion Hin|].
    destruct (Hattr r x Hc eq_refl Hx) as (fi & fj & Hfi & Hfj & H1 & H2).
    destruct Hxy as [-> | ->]; [rewrite H1 | rewrite H2];
      by apply (list_elem_of_fmap_2 (fun f : Feature => Current.feature_id (self w') (snd f))). }
  split; [reflexivity|]. split; [lia|]. split; [exact Hle|].
  split; [apply ratio_percent; lia|].
  exists r. split; [reflexivity|]. cbn in Hlen. lia.
Qed.

(** X22. When no feature carries the id attribute, every feature counts as
    ['N/A']: on a freshly built instance [report_summary] then reports at
    most one intersected geometry, however many features intersect. *)
Theorem report_summary_without_ids (w : World) (sm : Current.Summary) :
  invalid_intersections (self w) = None ->
  (forall f : Feature, f ∈ geometries (self w) ->
     snd f !! default "id" (id_attribute (config (self w))) = None) ->
  fst (Current.report_summary w) = Returns sm ->
  (Current.num_intersected_geometries sm <= 1)%nat.
Proof.
  intros Hc Hnoid Hs. unfold Current.report_summary in Hs.
  destruct (check_intersections_inputs w) as [Hg Hcfg].
  pose proof (issue_attributes w) as Hattr.
  destruct (check_intersections w) as [[r|e] w'] eqn:E; cbn in *; [|discriminate].
  destruct (length (geometries (self w')) =? 0)%nat; [discriminate|].
  injection Hs as <-. cbn.
  destruct (intersected_ids_facts (self w') r []) as (Hnd & _ & Hel).
  specialize (Hnd (NoDup_nil_2)).
  assert (forall y, y ∈ Current.intersected_ids (self w') r [] -> y = SStr "N/A") as Hall.
  { intros y Hy. destruct (Hel y Hy) as [Hin | (x & Hx & Hxy)]; [inversion Hin|].
    destruct (Hattr r x Hc eq_refl Hx) as (fi & fj & Hfi & Hfj & H1 & H2).
    unfold Current.feature_id in Hxy. rewrite Hcfg, H1, H2 in Hxy.
    rewrite (Hnoid fi Hfi), (Hnoid fj Hfj) in Hxy. cbn in Hxy. tauto. }
  destruct (Current.intersected_ids (self w') r []) as [|a [|b l]]; cbn; [lia | lia |].
  exfalso. apply NoDup_cons in Hnd as [Hnot _]. apply Hnot.
  rewrite (Hall a) by left. rewrite (Hall b) by (right; left). left.
Qed.

(** X23. In the version that has [validate_topology],
    [report_invalid_intersections] returns a report only when the
    intersection check finds nothing, and the report says so; as soon as
    there is an invalid intersection it raises [AttributeError], the method
    [save_invalid_intersections] it calls being no part of that version. *)
Theorem report_invalid_intersections_outcome (w : World) :
  V150527.getattr_self "save_invalid_intersections"
    = Some (V150527.no_attribute "save_invalid_intersections") /\
  match fst (V150527.report_invalid_intersections w) with
  | Returns report =>
      fst (check_intersections w) = Ok [] /\
      report = ("No invalid intersections found in dataset: "
                ++ dataset_type (self w) ++ ".")%string
  | Raises e =>
      (exists e', fst (check_intersections w) = Raise e' /\ e = Escaped e') \/
      (exists r, fst (check_intersections w) = Ok r /\ r <> [] /\
         e = AttributeError
               "'TopologyTest' object has no attribute 'save_invalid_intersections'")
  end.
Proof.
  split; [reflexivity|].
  unfold V150527.report_invalid_intersections.
  assert (dataset_type (self (snd (check_intersections w))) = dataset_type (self w))
    as Hdt.
  { destruct (invalid_intersections (self w)) as [cached|] eqn:Hc.
    - by rewrite (check_intersections_from_cache w cached Hc).
    - rewrite (check_intersections_uncached w Hc). cbn zeta.
      destruct (run_pairs (self w) _ [] (probes w)) as [[invalid|e] trace];
        reflexivity. }
  destruct (check_intersections w) as [[[|x r]|e] w']; cbn in *.
  - by rewrite Hdt.
  - right. exists (x :: r). by repeat split.
  - left. by exists e.
Qed.

End Reporting.

(** ** Further concrete runs *)

Section MoreConcrete.
Import Raster Scenarios MoreScenarios.

Lemma check_intersections_exact_witness :
  invalid_intersections (self outer_then_inner) = None /\
  fst (check_intersections outer_then_inner)
    = Ok [(outer_square, inner_square, inner_square, ∅, ∅)] /\
  (forall x, x ∈ [(outer_square, inner_square, inner_square,
                   (∅ : gmap string Scalar), (∅ : gmap string Scalar))] <->
     exists i j (fi fj : Geom * gmap string Scalar) g a,
       (i < j)%nat /\
       geometries (self outer_then_inner) !! i = Some fi /\
       geometries (self outer_then_inner) !! j = Some fj /\
       bbox_intersects (bounds (fst fi)) (bounds (fst fj)) = true /\
       intersects (fst fi) (fst fj) = Ok true /\
       _is_valid_intersection (self outer_then_inner) (snd fi) (snd fj) = false /\
       intersection (fst fi) (fst fj) = Ok g /\
       is_valid g = Ok true /\ area g = Ok a /\
       Qle_bool (default 0%Q (min_intersection_area (config (self outer_then_inner)))) a
         = true /\
       x = (fst fi, fst fj, g, snd fi, snd fj)).
Proof.
  assert (fst (check_intersections outer_then_inner)
          = Ok [(outer_square, inner_square, inner_square, ∅, ∅)]) as H
    by (vm_compute; reflexivity).
  split; [reflexivity|]. split; [exact H|].
  apply (check_intersections_exact outer_then_inner _ eq_refl H).
Defined.

Lemma validate_topology_entries_witness :
  fst (validate_topology nested_beside_corrupt) = Ok nested_results /\
  nested_results !! "containment"
    = Some (RPairs [(outer_square, inner_square, ∅, ∅)]) /\
  keep_result (RPairs [(outer_square, inner_square,
                        (∅ : gmap string Scalar), (∅ : gmap string Scalar))]) = true /\
  exists st, st ∈ stages nested_beside_corrupt /\ stage_name st = "containment" /\
             stage_on st = true /\
             stage_outcome st = Ok (Some (RPairs [(outer_square, inner_square, ∅, ∅)])).
Proof.
  assert (fst (validate_topology nested_beside_corrupt) = Ok nested_results) as H
    by (vm_compute; reflexivity).
  assert (nested_results !! "containment"
          = Some (RPairs [(outer_square, inner_square, ∅, ∅)])) as Hk
    by (vm_compute; reflexivity).
  split; [exact H|]. split; [exact Hk|].
  apply (validate_topology_entries nested_beside_corrupt nested_results
           "containment" _ H Hk).
Defined.

Lemma validate_topology_no_dangles_witness :
  enabled (self outer_then_inner) "dangles" = true /\
  fst (validate_topology outer_then_inner) = Ok nested_results /\
  nested_results !! "dangles" = None.
Proof.
  assert (fst (validate_topology outer_then_inner) = Ok nested_results) as H
    by (vm_compute; reflexivity).
  split; [vm_compute; reflexivity|]. split; [exact H|].
  apply (validate_topology_no_dangles outer_then_inner nested_results H).
Defined.

Lemma validate_topology_fails_on_lines_witness :
  enabled (self isolated_line) "dangles" = true /\
  (exists f, f ∈ geometries (self isolated_line) /\ geom_type (fst f) = LineString) /\
  exists e, fst (validate_topology isolated_line) = Raise e.
Proof.
  assert (enabled (self isolated_line) "dangles" = true) as Hon
    by (vm_compute; reflexivity).
  assert (exists f, f ∈ geometries (self isolated_line) /\
                    geom_type (fst f) = LineString) as Hline.
  { eexists. split; [left | reflexivity]. }
  split; [exact Hon|]. split; [exact Hline|].
  apply (validate_topology_fails_on_lines isolated_line Hon Hline).
Defined.

Lemma validate_topology_all_disabled_witness :
  (forall name, name ∈ check_names -> enabled (self nothing_enabled) name = false) /\
  validate_topology nothing_enabled = (Ok ∅, nothing_enabled).
Proof.
  assert (forall name, name ∈ check_names ->
                       enabled (self nothing_enabled) name = false) as Hoff.
  { intros name Hn. unfold check_names in Hn.
    repeat (apply elem_of_cons in Hn as [-> | Hn]; [vm_compute; reflexivity|]).
    inversion Hn. }
  split; [exact Hoff|].
  apply (validate_topology_all_disabled nothing_enabled Hoff).
Defined.


(** A dataset type whose entry is empty is turned away like an unknown one. *)
Example init_rejects_empty_rules :
  V150527.__init__ read_one_line disk "rivers.geojson" "rivers" "config.json"
    = Raises (ValueError "Dataset type 'rivers' not found in config.") /\
  V150527.__init__ read_one_line disk "lakes.geojson" "lakes" "config.json"
    = Raises (ValueError "Dataset type 'lakes' not found in config.") /\
  V150527.__init__ read_one_line disk "roads.geojson" "roads" "missing.json"
    = Raises (FileNotFoundError "Config file not found: missing.json") /\
  V150527._validate_config_structure "rivers" config_json = Returns tt.
Proof. repeat split; vm_compute; reflexivity. Qed.

Lemma report_summary_no_features_witness :
  geometries (self no_features) = [] /\
  fst (Current.report_summary no_features)
    = Raises (ZeroDivisionError "division by zero").
Proof.
  split; [reflexivity|].
  apply (report_summary_no_features no_features). reflexivity.
Defined.

Lemma report_summary_bounds_witness :
  invalid_intersections (self outer_then_inner) = None /\
  fst (Current.report_summary outer_then_inner)
    = Returns (Current.mkSummary 2 1 1 (Current.ratio 1 2 * 100)) /\
  (1 <= 2)%nat /\ (Current.ratio 1 2 * 100 <= 100)%Q.
Proof.
  assert (fst (Current.report_summary outer_then_inner)
          = Returns (Current.mkSummary 2 1 1 (Current.ratio 1 2 * 100))) as H
    by (vm_compute; reflexivity).
  destruct (report_summary_bounds outer_then_inner _ eq_refl H)
    as (_ & _ & Hle & Hpct & _).
  split; [reflexivity|]. split; [exact H|]. split; [exact Hle | exact Hpct].
Defined.

Lemma report_summary_without_ids_witness :
  invalid_intersections (self outer_then_inner) = None /\
  (forall f : Geom * gmap string Scalar,
      f ∈ geometries (self outer_then_inner) ->
      snd f !! default "id" (id_attribute (config (self outer_then_inner))) = None) /\
  fst (Current.report_summary outer_then_inner)
    = Returns (Current.mkSummary 2 1 1 (Current.ratio 1 2 * 100)) /\
  (1 <= 1)%nat.
Proof.
  assert (forall f : Geom * gmap string Scalar,
             f ∈ geometries (self outer_then_inner) ->
             snd f !! default "id" (id_attribute (config (self outer_then_inner)))
               = None) as Hnoid.
  { intros f Hf. cbn in Hf.
    apply elem_of_cons in Hf as [-> | Hf]; [reflexivity|].
    apply list_elem_of_singleton in Hf as ->. reflexivity. }
  assert (fst (Current.report_summary outer_then_inner)
          = Returns (Current.mkSummary 2 1 1 (Current.ratio 1 2 * 100))) as H
    by (vm_compute; reflexivity).
  split; [reflexivity|]. split; [exact Hnoid|]. split; [exact H|].
  apply (report_summary_without_ids outer_then_inner _ eq_refl Hnoid H).
Defined.

End MoreConcrete.

(** ** What a run leaves behind *)

Section AfterRun.
Context {Geom : Type} `{K : GeometryKernel Geom}.
Local Abbreviation World := (@World Geom).
Local Abbreviation M := (@M Geom).
Local Abbreviation Feature := (@Feature Geom).
Local Abbreviation CheckResult := (@CheckResult Geom).



Lemma keeps_self_stateless {A} (m : M A) : stateless m -> keeps_self m.
Proof. intros H w. destruct (H w) as [-> _]. by split. Qed.


Lemma keeps_self_get_then {A} (k : @TopologyTest Geom -> M A) :
  (forall s, stateless (k s)) -> keeps_self (bind get_self k).
Proof.
  intros Hk w. unfold bind, get_self. destruct (Hk (self w) w) as [-> _]. by split.
Qed.






Lemma run_pairs_trace_ok (s : @TopologyTest Geom) ps acc trace r trace' :
  run_pairs s ps acc trace = (Ok r, trace') -> trace' = trace ++ (label <$> ps).
Proof.
  revert acc trace. induction ps as [|p ps IH]; intros acc trace H; cbn in H.
  - injection H as _ <-. by rewrite app_nil_r.
  - destruct (pair_outcome s (snd (fst p)) (snd (snd p))) as [l|e]; [|discriminate].
    rewrite (IH _ _ H), fmap_cons, <- app_assoc. reflexivity.
Qed.

(** X25. The intersection check hands to the geometric test only pairs of
    features whose bounding boxes meet; and a first run that returns has
    tested every pair of positions i < j whose bounding boxes meet. *)
Theorem check_intersections_tests_candidates (w : World) :
  probes w = [] ->
  let evaluated := probes (snd (check_intersections w)) in
  (forall i j, (i, j) ∈ evaluated ->
     exists fi fj : Feature,
       geometries (self w) !! i = Some fi /\
       geometries (self w) !! j = Some fj /\
       bbox_intersects (bounds (fst fi)) (bounds (fst fj)) = true) /\
  (invalid_intersections (self w) = None ->
   (exists r, fst (check_intersections w) = Ok r) ->
   forall i j (fi fj : Feature),
     (i < j)%nat ->
     geometries (self w) !! i = Some fi ->
     geometries (self w) !! j = Some fj ->
     bbox_intersects (bounds (fst fi)) (bounds (fst fj)) = true ->
     (i, j) ∈ evaluated).
Proof.
  intros Hp evaluated. split.
  - intros i j Hin.
    destruct (probes_check_intersections w) as (done & rest & Hd & [H|H]);
      unfold evaluated in Hin; rewrite H, Hp in Hin; [inversion Hin|].
    cbn in Hin. apply list_elem_of_fmap in Hin as ([[i' fi] [j' fj]] & Heq & Hin).
    unfold label in Heq. cbn in Heq. injection Heq as -> ->.
    assert (((i', fi), (j', fj)) ∈ candidate_pairs (geometries (self w))) as Hc
      by (rewrite Hd; apply elem_of_app; by left).
    apply candidate_pairs_elem in Hc as (Hi & Hj & _ & Hb). cbn in *.
    apply elem_of_iterrows in Hi, Hj. by exists fi, fj.
  - intros Hc [r Hr] i j fi fj Hlt Hi Hj Hb. unfold evaluated.
    rewrite (check_intersections_uncached w Hc) in Hr |- *. cbn zeta in Hr |- *.
    destruct (run_pairs (self w) _ [] (probes w)) as [[invalid|e] trace] eqn:E;
      cbn in Hr |- *; [|discriminate].
    rewrite (run_pairs_trace_ok _ _ _ _ _ _ E), Hp. cbn.
    apply (list_elem_of_fmap_2' label _ ((i, fi), (j, fj))); [|reflexivity].
    apply candidate_pairs_elem. cbn.
    split; [by apply elem_of_iterrows|]. split; [by apply elem_of_iterrows|]. tauto.
Qed.

End AfterRun.

Section AfterRunConcrete.
Import Raster Scenarios MoreScenarios.


Lemma check_intersections_tests_candidates_witness :
  probes nested_beside_corrupt = [] /\
  (let evaluated := probes (snd (check_intersections nested_beside_corrupt)) in
   (forall i j, (i, j) ∈ evaluated ->
      exists fi fj : Geom * gmap string Scalar,
        geometries (self nested_beside_corrupt) !! i = Some fi /\
        geometries (self nested_beside_corrupt) !! j = Some fj /\
        bbox_intersects (bounds (fst fi)) (bounds (fst fj)) = true) /\
   (0, 1)%nat ∈ evaluated).
Proof.
  destruct (check_intersections_tests_candidates nested_beside_corrupt eq_refl)
    as [Hsound Hcomplete].
  split; [reflexivity|]. cbv zeta. split; [exact Hsound|].
  apply (Hcomplete eq_refl) with (fi := (outer_square, ∅)) (fj := (inner_square, ∅)).
  - eexists. vm_compute. reflexivity.
  - lia.
  - reflexivity.
  - reflexivity.
  - vm_compute. reflexivity.
Defined.

End AfterRunConcrete.

(** ** Intersecting pairs that are not flagged *)

Section SkippedPairs.
Import Raster Scenarios MoreScenarios.


End SkippedPairs.
